(** * signet.js: chain adapters and signature assembly

    A shallow embedding of the parts of signet.js that derive addresses,
    build signing payloads, normalise MPC signatures and assemble signed
    transactions:

    - [src/signature/utils.ts]  ([najToPubKey], [toRSV]),
    - [src/chains/EVM/EVM.ts]   (the [EVM] adapter),
    - the Bitcoin adapter       ([Bitcoin.parseRSVSignature],
                                 [Bitcoin.handleTransaction]).

    JavaScript strings are lists of characters, buffers are lists of bytes,
    plain objects are finite maps from property names to values, and a
    function that may throw (or an [async] function that may reject)
    returns a [result]. The functions of third-party packages ([ethers],
    [bitcoinjs-lib], [near-api-js]) and the remote collaborators (the MPC
    signer, the JSON-RPC provider, the chain-signature contract) are
    Section variables. *)

From Stdlib Require Import ZArith NArith Ascii String Lia.
From Stdlib Require Import DecimalString.
From Stdlib.Strings Require Import Byte.
From stdpp Require Import base list strings gmap.

Set Default Proof Using "Type".

(** ** Exceptions and results *)

(** What a JavaScript computation can throw: [new Error(message)], as the
    source writes it; a [TypeError] of the runtime (reading a property of
    [undefined]); or the failure of a collaborator outside the repository. *)
Inductive error : Type :=
| Error (message : string)
| TypeError (message : string)
| Upstream (message : string).

Inductive result (A : Type) : Type :=
| Ok (a : A)
| Throw (e : error).

Arguments Ok {A} a.
Arguments Throw {A} e.

Definition bind {A B : Type} (r : result A) (k : A -> result B) : result B :=
  match r with
  | Ok a => k a
  | Throw e => Throw e
  end.

Notation "'let*' x ':=' r 'in' k" := (bind r (fun x => k))
  (at level 10, x name, r at level 100, k at level 200,
   format "'[' 'let*'  x  ':='  r  'in' ']' '//' k").

Definition isOk {A : Type} (r : result A) : bool :=
  match r with Ok _ => true | Throw _ => false end.

(** ** JavaScript strings *)

Abbreviation jsstring := (list ascii).

(** A string literal of the source. *)
Definition lit (s : string) : jsstring := list_ascii_of_string s.

(** [s.padStart(target, fill)] for a one-character [fill]. *)
Definition padStart (target : nat) (fill : ascii) (s : jsstring) : jsstring :=
  if decide (target <= length s) then s
  else replicate (target - length s) fill ++ s.

(** [s.substring(start)]: a negative start counts as 0, a start past the
    end as the length. *)
Definition substring (start : Z) (s : jsstring) : jsstring :=
  let len := Z.of_nat (length s) in
  drop (Z.to_nat (Z.min (Z.max start 0) len)) s.

(** The relative index of [slice]: negative indices count from the end. *)
Definition rel_index (len i : Z) : Z :=
  if (i <? 0)%Z then Z.max (len + i) 0 else Z.min i len.

(** [s.slice(start, end)]; [end] is [None] when the argument is omitted. *)
Definition slice (start : Z) (end_ : option Z) (s : jsstring) : jsstring :=
  let len := Z.of_nat (length s) in
  let from := rel_index len start in
  let to := match end_ with Some e => rel_index len e | None => len end in
  take (Z.to_nat (to - from)) (drop (Z.to_nat from) s).

(** [s.startsWith(p)]. *)
Fixpoint startsWith (p s : jsstring) : bool :=
  match p, s with
  | [], _ => true
  | a :: p', b :: s' => Ascii.eqb a b && startsWith p' s'
  | _ :: _, [] => false
  end.

(** [s.split(sep)] for a one-character separator. *)
Fixpoint split (sep : ascii) (s : jsstring) : list jsstring :=
  match s with
  | [] => [[]]
  | c :: s' =>
      if Ascii.eqb c sep then [] :: split sep s'
      else match split sep s' with
           | piece :: pieces => (c :: piece) :: pieces
           | [] => [[c]]
           end
  end.

(** ** Hexadecimal *)

(** The value of a hexadecimal digit, either case. *)
Definition unhex (c : ascii) : option N :=
  let n := N_of_ascii c in
  if (48 <=? n)%N && (n <=? 57)%N then Some (n - 48)%N
  else if (97 <=? n)%N && (n <=? 102)%N then Some (n - 87)%N
  else if (65 <=? n)%N && (n <=? 70)%N then Some (n - 55)%N
  else None.

Definition isHexDigit (c : ascii) : bool :=
  match unhex c with Some _ => true | None => false end.

Definition isHex (s : jsstring) : bool := forallb isHexDigit s.

(** The lower-case digit of a value below 16. *)
Definition hexdigit (n : N) : ascii :=
  if (n <? 10)%N then ascii_of_N (48 + n) else ascii_of_N (87 + n).

Definition byte_of_N (n : N) : byte :=
  match Byte.of_N n with Some b => b | None => "000"%byte end.

(** [buf.toString('hex')]: two lower-case digits per byte. *)
Definition hex_of_byte (b : byte) : jsstring :=
  [hexdigit (Byte.to_N b / 16); hexdigit (Byte.to_N b mod 16)].

Fixpoint toHex (buf : list byte) : jsstring :=
  match buf with
  | [] => []
  | b :: buf' => hex_of_byte b ++ toHex buf'
  end.

(** [Buffer.from(s, 'hex')]: decodes pairs of digits and stops at the first
    pair that is not two hexadecimal digits; a trailing single character is
    dropped. *)
Fixpoint fromHex (s : jsstring) : list byte :=
  match s with
  | a :: b :: s' =>
      match unhex a, unhex b with
      | Some hi, Some lo => byte_of_N (16 * hi + lo) :: fromHex s'
      | _, _ => []
      end
  | _ => []
  end.

(** [parseInt(s, 16)]: leading white space, an optional sign, an optional
    [0x], then the longest run of hexadecimal digits; [None] is [NaN].
    Exact below 2^53, which covers the one-character call of the source. *)
Definition isSpace (c : ascii) : bool :=
  let n := N_of_ascii c in
  (n =? 32)%N || ((9 <=? n)%N && (n <=? 13)%N) || (n =? 160)%N.

Fixpoint skipSpaces (s : jsstring) : jsstring :=
  match s with
  | c :: s' => if isSpace c then skipSpaces s' else s
  | [] => []
  end.

Fixpoint hexDigits (acc : option N) (s : jsstring) : option N :=
  match s with
  | c :: s' =>
      match unhex c with
      | Some d => hexDigits (Some (16 * default 0%N acc + d)%N) s'
      | None => acc
      end
  | [] => acc
  end.

Definition strip0x (s : jsstring) : jsstring :=
  match s with
  | "0"%char :: x :: s' =>
      if Ascii.eqb x "x" || Ascii.eqb x "X" then s' else s
  | _ => s
  end.

Definition parseInt16 (s : jsstring) : option Z :=
  match skipSpaces s with
  | "-"%char :: s' => (fun n => (- Z.of_N n)%Z) <$> hexDigits None (strip0x s')
  | "+"%char :: s' => Z.of_N <$> hexDigits None (strip0x s')
  | s' => Z.of_N <$> hexDigits None (strip0x s')
  end.

(** [n % 2 === 0] for the result of [parseInt]: false on [NaN]. *)
Definition isEvenNumber (n : option Z) : bool :=
  match n with
  | Some z => (Z.rem z 2 =? 0)%Z
  | None => false
  end.

(** ** Signatures ([src/signature]) *)

(** The signature the MPC contract returns:
    [{ big_r: { affine_point }, s: { scalar }, recovery_id }]. *)
Module MPC.
Record BigR : Type := { affine_point : jsstring }.
Record Scalar : Type := { scalar : jsstring }.
Record Signature : Type :=
  { big_r : BigR; s : Scalar; recovery_id : Z }.
End MPC.

(** The normalised signature: [{ r, s, v }]. *)
Module RSV.
Record Signature : Type := { r : jsstring; s : jsstring; v : Z }.
End RSV.

Definition toRSV (signature : MPC.Signature) : RSV.Signature :=
  {| RSV.r := substring 2 (MPC.affine_point (MPC.big_r signature));
     RSV.s := MPC.scalar (MPC.s signature);
     RSV.v := MPC.recovery_id signature |}.

Section NajKeys.

(** [base_decode] of near-api-js (base58); its argument is [None] when
    the source passes [undefined]. *)
Variable base_decode : option jsstring -> result (list byte).

Definition najToPubKey (najPubKey : jsstring) (compress : bool)
  : result jsstring :=
  let* decoded := base_decode (split ":" najPubKey !! 1) in
  let uncompressedPubKey := lit "04" ++ toHex decoded in
  if negb compress then Ok uncompressedPubKey
  else
    let pubKeyHex :=
      if startsWith (lit "04") uncompressedPubKey
      then slice 2 None uncompressedPubKey
      else uncompressedPubKey in
    if negb (length pubKeyHex =? 128)
    then Throw (Error "Invalid uncompressed public key length")
    else
      let x := slice 0 (Some 64%Z) pubKeyHex in
      let y := slice 64 None pubKeyHex in
      let isEven := isEvenNumber (parseInt16 (slice (-1) None y)) in
      let prefix := if isEven then lit "02" else lit "03" in
      Ok (prefix ++ x).

End NajKeys.

(** ** Bitcoin signature encoding *)

(** [Bitcoin.parseRSVSignature]. *)
Definition parseRSVSignature (signature : RSV.Signature)
  : result (list byte) :=
  let r := padStart 64 "0" (RSV.r signature) in
  let s := padStart 64 "0" (RSV.s signature) in
  let rawSignature := fromHex (r ++ s) in
  if negb (length rawSignature =? 64)
  then Throw (Error "Invalid signature length.")
  else Ok rawSignature.

(** ** JavaScript values and objects *)

(** The signature object of ethers, as far as the source fills it. *)
Module Ethers.
Record Signature : Type := { r : jsstring; s : jsstring; v : Z }.
End Ethers.

Inductive jsval : Type :=
| VUndefined
| VNull
| VBool (b : bool)
| VNumber (n : Z)
| VBigInt (n : Z)
| VString (s : jsstring)
| VSignature (sig : Ethers.Signature).

(** A plain object: its own properties by name. Object spread
    [{...a, ...b}] is [b ∪ a]: the later source wins. *)
Abbreviation object := (gmap string jsval).

(** [o.name], [undefined] when the property is absent. *)
Definition prop (name : string) (o : object) : jsval :=
  default VUndefined (o !! name).

(** ** The helpers of ethers the source goes through *)

(** A [BytesLike] argument: a [Uint8Array] (or [Buffer]) or a string. *)
Inductive BytesLike : Type :=
| BytesOf (buf : list byte)
| HexString (s : jsstring).

(** A string is [BytesLike] when it is [0x] followed by an even number of
    hexadecimal digits. *)
Definition isBytesLikeString (s : jsstring) : bool :=
  match s with
  | "0"%char :: "x"%char :: digits => isHex digits && Nat.even (length digits)
  | _ => false
  end.

Definition getBytes (value : BytesLike) : result (list byte) :=
  match value with
  | BytesOf buf => Ok buf
  | HexString s =>
      if isBytesLikeString s then Ok (fromHex (drop 2 s))
      else Throw (Error "invalid BytesLike value")
  end.

Definition hexlify (buf : list byte) : jsstring := lit "0x" ++ toHex buf.

(** ** The EVM adapter ([src/chains/EVM/EVM.ts]) *)

Module EVM.

Record MPCPayload : Type := { index : nat; payload : list byte }.

Record PayloadAndTransaction : Type :=
  { transaction : object; mpcPayloads : list MPCPayload }.

Record AddressAndPublicKey : Type :=
  { address : jsstring; publicKey : jsstring }.

Section Adapter.

(** The derivation path is opaque to the adapter. *)
Context {KeyDerivationPath : Type}.

(** The Keccak-256 hash function behind [ethers.keccak256]. *)
Variable keccak256_bytes : list byte -> list byte.

(** [this.provider]: its connection URL, the chain id of its network
    and [getTransactionCount(address, 'latest')]. *)
Variable connectionUrl : jsstring.
Variable chainId : Z.
Variable getTransactionCount : jsval -> result Z.

(** [fetchEVMFeeProperties] of [./utils]: the fee-market fields. *)
Variable fetchEVMFeeProperties : jsstring -> object -> result object.

(** [this.contract.getDerivedPublicKey({ path, predecessor })];
    [None] is [undefined]. *)
Variable getDerivedPublicKey :
  KeyDerivationPath -> jsstring -> result (option jsstring).

(** [ethers.Transaction.from(tx).unsignedSerialized],
    [ethers.Transaction.from(tx).serialized] and
    [ethers.Signature.from({ r, s, v })]. *)
Variable unsignedSerialized : object -> result jsstring.
Variable serialized : object -> result jsstring.
Variable Signature_from : jsstring -> jsstring -> Z -> result Ethers.Signature.

(** [ethers.keccak256(data)]. *)
Definition keccak256 (data : BytesLike) : result jsstring :=
  let* bytes := getBytes data in
  Ok (hexlify (keccak256_bytes bytes)).

Definition attachGasAndNonce (transaction : object) : result object :=
  let* fees := fetchEVMFeeProperties connectionUrl transaction in
  let* nonce := getTransactionCount (prop "from" transaction) in
  let rest := delete "from" transaction in
  Ok (rest ∪
      <["type" := VNumber 2]>
        (<["nonce" := VNumber nonce]>
           (<["chainId" := VBigInt chainId]> fees))).

(** [signature] is [None] when the source passes [undefined]. *)
Definition parseSignature (signature : option RSV.Signature)
  : result Ethers.Signature :=
  match signature with
  | None =>
      Throw (TypeError "Cannot read properties of undefined (reading 'r')")
  | Some sig =>
      Signature_from (lit "0x" ++ RSV.r sig) (lit "0x" ++ RSV.s sig)
        (RSV.v sig)
  end.

(** A string is falsy exactly when it is empty. *)
Definition deriveAddressAndPublicKey
    (signerId : jsstring) (path : KeyDerivationPath)
  : result AddressAndPublicKey :=
  let* derived := getDerivedPublicKey path signerId in
  match derived with
  | None | Some [] => Throw (Error "Failed to get derived public key")
  | Some uncompressedPubKey =>
      let publicKeyNoPrefix :=
        if startsWith (lit "04") uncompressedPubKey
        then substring 2 uncompressedPubKey
        else uncompressedPubKey in
      let* hash := keccak256 (BytesOf (fromHex publicKeyNoPrefix)) in
      Ok {| address :=
              lit "0x" ++ substring (Z.of_nat (length hash) - 40) hash;
            publicKey := uncompressedPubKey |}
  end.

Definition getMPCPayloadAndTransaction (transactionRequest : object)
  : result PayloadAndTransaction :=
  let* transaction := attachGasAndNonce transactionRequest in
  let* txSerialized := unsignedSerialized transaction in
  let* transactionHash := keccak256 (HexString txSerialized) in
  let* txHash := getBytes (HexString transactionHash) in
  Ok {| transaction := transaction;
        mpcPayloads := [ {| index := 0; payload := txHash |} ] |}.

Definition addSignature
    (transaction : object) (mpcSignatures : list RSV.Signature)
  : result jsstring :=
  let* signature := parseSignature (mpcSignatures !! 0) in
  serialized (<["signature" := VSignature signature]> transaction).

End Adapter.

End EVM.

(** ** The Bitcoin adapter *)

Module Bitcoin.

Record UTXO : Type := { txid : jsstring; vout : nat; value : Z }.

(** An output either carries a script or an address, which may be left
    out (['script' in out]). *)
Inductive BTCOutput : Type :=
| ScriptOutput (script : list byte) (value : Z)
| AddressOutput (address : option jsstring) (value : Z).

(** [amount] is the field [value] of the request. *)
Record BTCTransaction : Type :=
  { to : jsstring;
    amount : jsstring;
    inputs : option (list UTXO);
    outputs : option (list BTCOutput) }.

Record NearAuthentication {NetworkId : Type} : Type :=
  { accountId : jsstring; networkId : NetworkId }.
Arguments NearAuthentication : clear implicits.

(** An output of a fetched transaction. *)
Record TxOut : Type := { script : list byte; outValue : Z }.

(** The argument of [psbt.addInput]. *)
Record InputOptions : Type :=
  { hash : jsstring;
    index : nat;
    witnessUtxo : list byte * Z }.

(** The argument of [psbt.addOutput]. *)
Inductive OutputOptions : Type :=
| ToScript (script : list byte) (value : Z)
| ToAddress (address : jsstring) (value : Z).

(** What the adapter exchanges with the MPC signer, in the order it
    happens: the call [this.signer(hash)] made while input [index] is
    being signed, and the settlement of the promise it returned. *)
Inductive event : Type :=
| Requested (index : nat) (hash : list byte)
| Completed (index : nat) (outcome : result MPC.Signature).

(** The state outside the adapter: the signer's own state and the
    history of the exchanges with it. *)
Record World {SignerState : Type} : Type :=
  { signerState : SignerState; trace : list event }.
Arguments World : clear implicits.

(** An [async] function: it runs in a world and settles, leaving a world
    and either a value or a rejection. *)
Definition Async (SignerState A : Type) : Type :=
  World SignerState -> World SignerState * result A.

Section Monad.

Context {SignerState : Type}.

Definition ret {A : Type} (a : A) : Async SignerState A :=
  fun w => (w, Ok a).

Definition reject {A : Type} (e : error) : Async SignerState A :=
  fun w => (w, Throw e).

(** A computation that does not touch the signer. *)
Definition lift {A : Type} (r : result A) : Async SignerState A :=
  fun w => (w, r).

(** [await m] followed by [k]: [k] starts in the world [m] left, and
    only when [m] has settled with a value. *)
Definition await {A B : Type}
    (m : Async SignerState A) (k : A -> Async SignerState B)
  : Async SignerState B :=
  fun w =>
    match m w with
    | (w', Ok a) => k a w'
    | (w', Throw e) => (w', Throw e)
    end.

Definition record (e : event) (w : World SignerState)
  : World SignerState :=
  {| signerState := signerState w; trace := trace w ++ [e] |}.

End Monad.

Notation "'await*' x ':=' m 'in' k" := (await m (fun x => k))
  (at level 10, x name, m at level 100, k at level 200,
   format "'[' 'await*'  x  ':='  m  'in' ']' '//' k").

(** The callbacks of [forEach], and those of [Promise.all] from the point
    where their fetch has completed, run one after the other, each on the
    PSBT the one before left; the first failure ends the run. *)
Fixpoint forEach {A B : Type} (f : B -> A -> result B) (l : list A) (b : B)
  : result B :=
  match l with
  | [] => Ok b
  | a :: l' => let* b' := f b a in forEach f l' b'
  end.

Section Adapter.

Context {SignerState KeyDerivationPath Network NetworkId Contracts Psbt : Type}.

(** The fields of the instance. *)
Variable network : Network.
Variable providerUrl : jsstring.
Variable contract : Contracts.
(** [this.signer]: the external MPC signer. A call may change the
    signer's state and settles with a signature or a rejection. *)
Variable signer :
  SignerState -> list byte -> SignerState * result MPC.Signature.

(** [fetchDerivedBTCAddressAndPublicKey] and [fetchBTCFeeProperties] of
    [./utils]. The second receives the recipient and the amount as the
    request has them; the conversion to satoshi is on its side. *)
Variable fetchDerivedBTCAddressAndPublicKey :
  jsstring -> KeyDerivationPath -> Network -> NetworkId -> Contracts ->
  result (jsstring * list byte).
Variable fetchBTCFeeProperties :
  jsstring -> jsstring -> jsstring -> jsstring ->
  result (list UTXO * list BTCOutput).

(** [this.fetchTransaction(txid).outs], and the order in which the
    fetches started by [Promise.all] complete. *)
Variable fetchTransactionOuts : jsstring -> result (list TxOut).
Variable completionOrder : list UTXO -> list UTXO.

(** [axios.post(url, body)]: the status and the body of the response. *)
Variable post : jsstring -> jsstring -> result (Z * option jsstring).

(** bitcoinjs-lib. [new Psbt({ network: parseBTCNetwork(network) })],
    [addInput], [addOutput], [finalizeAllInputs] and
    [extractTransaction().toHex()]; [signInputAsync(index, keyPair)] is
    [sighashOf], then one call of [keyPair.sign] on that hash, then, once
    the signature has arrived, [addPartialSig]. *)
Variable newPsbt : Network -> Psbt.
Variable addInput : Psbt -> InputOptions -> result Psbt.
Variable addOutput : Psbt -> OutputOptions -> result Psbt.
Variable sighashOf : Psbt -> nat -> list byte -> result (list byte).
Variable addPartialSig :
  Psbt -> nat -> list byte -> list byte -> result Psbt.
Variable finalizeAllInputs : Psbt -> result Psbt.
Variable extractTransactionHex : Psbt -> result jsstring.

Abbreviation Async' := (Async SignerState).

(** [sendTransaction]: every failure is caught and thrown again as
    ['Error broadcasting transaction']. *)
Definition sendTransaction (txHex : jsstring) : result (option jsstring) :=
  match post (providerUrl ++ lit "/tx") txHex with
  | Ok (status, data) =>
      if (status =? 200)%Z then Ok data
      else Throw (Error "Error broadcasting transaction")
  | Throw _ => Throw (Error "Error broadcasting transaction")
  end.

(** [keyPair.sign], called while input [index] is being signed:
    [await this.signer(hash)], then [parseRSVSignature(toRSV(_))]. *)
Definition sign (index : nat) (hash : list byte)
  : Async' (list byte) :=
  fun w =>
    let w1 := record (Requested index hash) w in
    let (st, outcome) := signer (signerState w1) hash in
    let w2 := record (Completed index outcome)
                {| signerState := st; trace := trace w1 |} in
    (w2, let* mpcSignature := outcome in
         parseRSVSignature (toRSV mpcSignature)).

(** [psbt.signInputAsync(index, keyPair)]. *)
Definition signInputAsync
    (index : nat) (publicKey : list byte) (psbt : Psbt) : Async' Psbt :=
  await* hash := lift (sighashOf psbt index publicKey) in
  await* signature := sign index hash in
  lift (addPartialSig psbt index publicKey signature).

(** The loop [for (index; index < inputs.length; index += 1)] with
    [remaining] iterations left. *)
Fixpoint signInputs
    (remaining index : nat) (publicKey : list byte) (psbt : Psbt)
  : Async' Psbt :=
  match remaining with
  | 0 => ret psbt
  | S remaining' =>
      await* psbt' := signInputAsync index publicKey psbt in
      signInputs remaining' (S index) publicKey psbt'
  end.

(** The callback of [inputs.map] under [Promise.all]. *)
Definition addUtxo (psbt : Psbt) (utxo : UTXO) : result Psbt :=
  let* outs := fetchTransactionOuts (txid utxo) in
  match outs !! vout utxo with
  | None =>
      Throw (TypeError
               "Cannot read properties of undefined (reading 'script')")
  | Some prevOut =>
      addInput psbt
        {| hash := txid utxo;
           index := vout utxo;
           witnessUtxo := (script prevOut, value utxo) |}
  end.

(** The callback of [outputs.forEach]; [out.address || address]. *)
Definition addOut (address : jsstring) (psbt : Psbt) (out : BTCOutput)
  : result Psbt :=
  match out with
  | ScriptOutput s val => addOutput psbt (ToScript s val)
  | AddressOutput (Some (c :: a)) val =>
      addOutput psbt (ToAddress (c :: a) val)
  | AddressOutput _ val => addOutput psbt (ToAddress address val)
  end.

(** [data.inputs && data.outputs ? data : await fetchBTCFeeProperties(..)]:
    an array, even an empty one, is truthy. *)
Definition resolveInputsAndOutputs (address : jsstring) (data : BTCTransaction)
  : result (list UTXO * list BTCOutput) :=
  match inputs data, outputs data with
  | Some ins, Some outs => Ok (ins, outs)
  | _, _ => fetchBTCFeeProperties providerUrl address (to data) (amount data)
  end.

Definition handleTransaction
    (data : BTCTransaction)
    (nearAuthentication : NearAuthentication NetworkId)
    (path : KeyDerivationPath)
  : Async' jsstring :=
  await* derived :=
    lift (fetchDerivedBTCAddressAndPublicKey
            (accountId nearAuthentication) path network
            (networkId nearAuthentication) contract) in
  let (address, publicKey) := (derived : jsstring * list byte) in
  await* resolved := lift (resolveInputsAndOutputs address data) in
  let (ins, outs) := (resolved : list UTXO * list BTCOutput) in
  let psbt := newPsbt network in
  await* psbt := lift (forEach addUtxo (completionOrder ins) psbt) in
  await* psbt := lift (forEach (addOut address) outs psbt) in
  await* psbt := signInputs (length ins) 0 publicKey psbt in
  await* psbt := lift (finalizeAllInputs psbt) in
  await* txHex := lift (extractTransactionHex psbt) in
  await* txid := lift (sendTransaction txHex) in
  match txid with
  | Some (c :: id) => ret (c :: id)
  | _ => reject (Error "Failed to broadcast transaction")
  end.

(** The indices of the inputs for which a signature was requested, in
    the order of the requests. *)
Definition requested (tr : list event) : list nat :=
  omap (fun e => match e with
                 | Requested i _ => Some i
                 | Completed _ _ => None
                 end) tr.

End Adapter.

End Bitcoin.

(** ** A reference base58 decoder

    What [bs58.decode] computes, used to run [najToPubKey] on concrete
    keys: every leading [1] is a zero byte, the remaining digits are a
    number in base 58, written out big-endian. *)

Definition base58_alphabet : jsstring :=
  lit "123456789ABCDEFGHJKLMNPQRSTUVWXYZabcdefghijkmnopqrstuvwxyz".

Fixpoint indexOf (c : ascii) (alphabet : jsstring) : option N :=
  match alphabet with
  | [] => None
  | a :: alphabet' =>
      if Ascii.eqb a c then Some 0%N
      else N.succ <$> indexOf c alphabet'
  end.

Fixpoint base58_value (acc : N) (s : jsstring) : option N :=
  match s with
  | [] => Some acc
  | c :: s' =>
      match indexOf c base58_alphabet with
      | Some d => base58_value (58 * acc + d)%N s'
      | None => None
      end
  end.

Fixpoint leadingOnes (s : jsstring) : nat :=
  match s with
  | "1"%char :: s' => S (leadingOnes s')
  | _ => 0
  end.

(** The bytes of [n], least significant first; [fuel] bounds their number. *)
Fixpoint littleEndianBytes (fuel : nat) (n : N) : list byte :=
  match fuel with
  | 0 => []
  | S fuel' =>
      if (n =? 0)%N then []
      else byte_of_N (n mod 256) :: littleEndianBytes fuel' (n / 256)
  end.

Definition bs58_decode (value : option jsstring) : result (list byte) :=
  match value with
  | None => Throw (TypeError "Expected String")
  | Some s =>
      match base58_value 0 s with
      | None => Throw (Error "Non-base58 character")
      | Some n =>
          Ok (replicate (leadingOnes s) x00 ++
              rev (littleEndianBytes (length s) n))
      end
  end.

(** The number a buffer denotes, most significant byte first. *)
Definition bigEndian (buf : list byte) : N :=
  fold_left (fun acc b => (256 * acc + Byte.to_N b)%N) buf 0%N.

(** ** Well-formed signatures and sequential histories *)

(** Modelled from the spec: the declaration of [MPCSignature] in
    [src/signature/types] is not part of the sources at hand. A
    well-formed MPC signature has as [big_r.affine_point] a compressed
    curve point in hexadecimal (a one-byte encoding prefix and the 32-byte
    x-coordinate, 66 digits) and as [s.scalar] a 32-byte scalar (64
    digits). *)
Definition wellFormedMPC (signature : MPC.Signature) : Prop :=
  length (MPC.affine_point (MPC.big_r signature)) = 66 /\
  isHex (MPC.affine_point (MPC.big_r signature)) = true /\
  length (MPC.scalar (MPC.s signature)) = 64 /\
  isHex (MPC.scalar (MPC.s signature)) = true.

(** A 32-byte scalar in hexadecimal. *)
Definition scalarHex (s : jsstring) : Prop :=
  length s = 64 /\ isHex s = true /\ length (fromHex s) = 32.

(** A history in which the inputs from [i] on are signed one at a time:
    each request is followed by its own completion before anything else
    happens, the next request is for the next input, and it is made only
    when the completion brought a signature. *)
Inductive sequential : nat -> list Bitcoin.event -> Prop :=
| sequential_nil i : sequential i []
| sequential_cons i hash outcome evs :
    sequential (S i) evs ->
    (evs <> [] -> exists sig, outcome = Ok sig) ->
    sequential i
      (Bitcoin.Requested i hash :: Bitcoin.Completed i outcome :: evs).

(** ** Sample inputs and collaborators *)

Definition sampleMPC : MPC.Signature :=
  {| MPC.big_r :=
       {| MPC.affine_point :=
            lit "02" ++ toHex (replicate 31 x00 ++ [x7b]) |};
     MPC.s := {| MPC.scalar := toHex (replicate 31 x00 ++ [xea]) |};
     MPC.recovery_id := 1 |}.

Definition sampleRSV : RSV.Signature :=
  {| RSV.r := lit "7b"; RSV.s := lit "01ea"; RSV.v := 0 |}.

(** A key of 64 zero bytes and a key of one byte, in NEAR format. *)
Definition zeroKey : jsstring := lit "secp256k1:" ++ replicate 64 "1"%char.
Definition shortKey : jsstring := lit "secp256k1:2".

(** A digest of 32 bytes standing in for Keccak-256. *)
Definition sampleDigest (buf : list byte) : list byte :=
  take 32 (buf ++ replicate 32 x00).

Definition sampleUrl : jsstring := lit "https://rpc.example".

Definition sampleFees (url : jsstring) (request : object) : result object :=
  Ok (<["maxFeePerGas" := VBigInt 30]>
        (<["maxPriorityFeePerGas" := VBigInt 1]>
           (<["gasLimit" := VBigInt 21000]> ∅))).

Definition sampleNonce (address : jsval) : result Z := Ok 7%Z.

Definition sampleUnsigned (transaction : object) : result jsstring :=
  Ok (lit "0x02c0").

(** A serialization that shows which signature was attached. *)
Definition sampleSerialized (transaction : object) : result jsstring :=
  match transaction !! "signature" with
  | Some (VSignature sig) =>
      Ok (lit "0x02" ++ drop 2 (Ethers.r sig) ++ drop 2 (Ethers.s sig))
  | _ => Throw (Error "unsigned transaction cannot be serialized")
  end.

Definition sampleSignature_from (r s : jsstring) (v : Z)
  : result Ethers.Signature :=
  Ok {| Ethers.r := r; Ethers.s := s; Ethers.v := v |}.

Definition sampleContract (path signerId : jsstring)
  : result (option jsstring) :=
  Ok (Some (lit "04" ++ toHex (replicate 64 x01))).

Definition sampleRequest : object :=
  <["from" := VString (lit "0xaa")]>
    (<["to" := VString (lit "0xbb")]>
       (<["value" := VString (lit "1000000000000000000")]> ∅)).

Definition sampleAttached : object :=
  delete "from" sampleRequest ∪
  <["type" := VNumber 2]>
    (<["nonce" := VNumber 7]>
       (<["chainId" := VBigInt 1]>
          (<["maxFeePerGas" := VBigInt 30]>
             (<["maxPriorityFeePerGas" := VBigInt 1]>
                (<["gasLimit" := VBigInt 21000]> ∅))))).

(** Three signatures with 32-byte [r] and [s]. *)
Definition sigA : RSV.Signature :=
  {| RSV.r := toHex (replicate 31 x00 ++ [xaa]);
     RSV.s := toHex (replicate 31 x00 ++ [x0a]);
     RSV.v := 0 |}.
Definition sigB : RSV.Signature :=
  {| RSV.r := toHex (replicate 31 x00 ++ [xbb]);
     RSV.s := toHex (replicate 31 x00 ++ [x0b]);
     RSV.v := 1 |}.
Definition sigC : RSV.Signature :=
  {| RSV.r := toHex (replicate 31 x00 ++ [xcc]);
     RSV.s := toHex (replicate 31 x00 ++ [x0c]);
     RSV.v := 1 |}.

(** A signer that counts its calls and always answers [sampleMPC]; a PSBT
    kept as the list of its inputs, each with the signature attached to
    it so far. *)
Definition sampleSigner (calls : nat) (hash : list byte)
  : nat * result MPC.Signature :=
  (S calls, Ok sampleMPC).

Abbreviation SamplePsbt := (list (Bitcoin.InputOptions * option (list byte))).

Definition sampleDerive
    (signerId path : jsstring) (network networkId contracts : unit)
  : result (jsstring * list byte) :=
  Ok (lit "tb1qsender", [x02; x01]).

Definition sampleFeeProperties (url address to amount : jsstring)
  : result (list Bitcoin.UTXO * list Bitcoin.BTCOutput) :=
  Throw (Upstream "no fee data").

Definition sampleOuts (txid : jsstring) : result (list Bitcoin.TxOut) :=
  Ok [ {| Bitcoin.script := [x00; x14]; Bitcoin.outValue := 5000 |};
       {| Bitcoin.script := [x00; x14]; Bitcoin.outValue := 7000 |} ].

Definition samplePost (url body : jsstring) : result (Z * option jsstring) :=
  Ok (200%Z, Some (lit "txid-of-broadcast")).

Definition sampleAddInput (psbt : SamplePsbt) (input : Bitcoin.InputOptions)
  : result SamplePsbt :=
  Ok (psbt ++ [(input, None)]).

Definition sampleAddOutput (psbt : SamplePsbt) (out : Bitcoin.OutputOptions)
  : result SamplePsbt :=
  Ok psbt.

Definition sampleSighash (psbt : SamplePsbt) (index : nat) (publicKey : list byte)
  : result (list byte) :=
  match psbt !! index with
  | Some (input, _) => Ok (fromHex (Bitcoin.hash input))
  | None => Throw (Error "No input")
  end.

Definition sampleAddPartialSig
    (psbt : SamplePsbt) (index : nat) (publicKey signature : list byte)
  : result SamplePsbt :=
  match psbt !! index with
  | Some (input, _) => Ok (<[index := (input, Some signature)]> psbt)
  | None => Throw (Error "No input")
  end.

Definition sampleHandleTransaction :=
  Bitcoin.handleTransaction (KeyDerivationPath := jsstring)
    tt (lit "https://btc.example") tt sampleSigner sampleDerive
    sampleFeeProperties sampleOuts (fun ins => ins) samplePost
    (fun _ => ([] : SamplePsbt)) sampleAddInput sampleAddOutput
    sampleSighash sampleAddPartialSig (fun psbt => Ok psbt)
    (fun _ => Ok (lit "0200")).

Definition twoInputs : Bitcoin.BTCTransaction :=
  {| Bitcoin.to := lit "tb1qrecipient";
     Bitcoin.amount := lit "0.0001";
     Bitcoin.inputs :=
       Some [ {| Bitcoin.txid := lit "aa01"; Bitcoin.vout := 0;
                 Bitcoin.value := 5000 |};
              {| Bitcoin.txid := lit "bb02"; Bitcoin.vout := 1;
                 Bitcoin.value := 7000 |} ];
     Bitcoin.outputs :=
       Some [ Bitcoin.AddressOutput (Some (lit "tb1qrecipient")) 10000;
              Bitcoin.AddressOutput None 1500 ] |}.

Definition sampleAuthentication : Bitcoin.NearAuthentication unit :=
  {| Bitcoin.accountId := lit "alice.near"; Bitcoin.networkId := tt |}.

Definition freshWorld : Bitcoin.World nat :=
  {| Bitcoin.signerState := 0; Bitcoin.trace := [] |}.

Definition sampleRun : Bitcoin.World nat * result jsstring :=
  sampleHandleTransaction twoInputs sampleAuthentication (lit "bitcoin-1")
    freshWorld.

(** ** Pending transactions in [window.localStorage] ([EVM.setTransaction],
    [EVM.getTransaction]) *)

Module EVMStorage.

(** The storage: the string kept under each key. [setItem] is taken to
    succeed (no quota). *)
Abbreviation Storage := (gmap string jsstring).

(** [value.toString()] of a bigint. *)
Definition bigintToString (n : Z) : jsstring :=
  lit (DecimalString.NilZero.string_of_int (Z.to_int n)).

(** The replacer handed to [JSON.stringify]:
    [typeof value === 'bigint' ? value.toString() : value]. *)
Definition replacer (value : jsval) : jsval :=
  match value with
  | VBigInt n => VString (bigintToString n)
  | _ => value
  end.

Section Store.

(** What [JSON.parse] returns. *)
Context {Parsed : Type}.

(** [JSON.stringify] on an object whose properties have been through the
    replacer already, and [JSON.parse]. *)
Variable JSON_stringify : object -> result jsstring.
Variable JSON_parse : jsstring -> result Parsed.

Definition setTransaction
    (transaction : object) (storageKey : string) (storage : Storage)
  : Storage * result unit :=
  match JSON_stringify (replacer <$> transaction) with
  | Ok serializedTransaction =>
      (<[storageKey := serializedTransaction]> storage, Ok tt)
  | Throw e => (storage, Throw e)
  end.

(** [remove] is the truth value of [options?.remove]. The item is read,
    then removed if asked, and only then parsed; [None] is [undefined]. *)
Definition getTransaction
    (storageKey : string) (remove : bool) (storage : Storage)
  : Storage * result (option Parsed) :=
  let txSerialized := storage !! storageKey in
  let storage' := if remove then delete storageKey storage else storage in
  match txSerialized with
  | None | Some [] => (storage', Ok None)
  | Some text =>
      (storage', let* parsed := JSON_parse text in Ok (Some parsed))
  end.

End Store.

End EVMStorage.

(** ** Fetching a transaction ([Bitcoin.fetchTransaction]) *)

(** An input of the provider's answer. *)
Module Vin.
Record t : Type :=
  { txid : jsstring;
    vout : nat;
    sequence : option Z;
    scriptsig : option jsstring;
    witness : option (list jsstring) }.
End Vin.

(** An output of the provider's answer. *)
Module Vout.
Record t : Type := { value : Z; scriptpubkey : jsstring }.
End Vout.

(** The provider's answer to [GET /tx/:id]. *)
Module TxData.
Record t : Type :=
  { version : Z; locktime : Z; vin : list Vin.t; vout : list Vout.t }.
End TxData.

(** [bitcoin.Transaction] of bitcoinjs-lib. *)
Module Tx.

Record input : Type :=
  { hash : list byte;
    index : nat;
    script : list byte;
    sequence : Z;
    witness : list (list byte) }.

Record t : Type :=
  { version : Z; locktime : Z; ins : list input; outs : list Bitcoin.TxOut }.

Definition DEFAULT_SEQUENCE : Z := 4294967295.

Section Library.

(** The argument checks of [addInput], [addOutput] and [setWitness]. *)
Variable checkInput :
  list byte -> nat -> option Z -> option (list byte) -> result unit.
Variable checkOutput : list byte -> Z -> result unit.
Variable checkWitness : nat -> list (list byte) -> result unit.

(** [new bitcoin.Transaction()], before its version and locktime are set. *)
Definition create (version locktime : Z) : t :=
  {| version := version; locktime := locktime; ins := []; outs := [] |}.

(** [tx.addInput(hash, index, sequence, scriptSig)]: a missing sequence
    is [DEFAULT_SEQUENCE], a missing script the empty script; the witness
    starts empty. *)
Definition addInput
    (tx : t) (hash : list byte) (index : nat) (sequence : option Z)
    (scriptSig : option (list byte)) : result t :=
  let* _ := checkInput hash index sequence scriptSig in
  Ok {| version := version tx; locktime := locktime tx;
        ins := ins tx ++
               [ {| hash := hash; index := index;
                    script := default [] scriptSig;
                    sequence := default DEFAULT_SEQUENCE sequence;
                    witness := [] |} ];
        outs := outs tx |}.

(** [tx.addOutput(scriptPubKey, value)]. *)
Definition addOutput (tx : t) (scriptPubKey : list byte) (value : Z)
  : result t :=
  let* _ := checkOutput scriptPubKey value in
  Ok {| version := version tx; locktime := locktime tx; ins := ins tx;
        outs := outs tx ++
                [ {| Bitcoin.script := scriptPubKey;
                     Bitcoin.outValue := value |} ] |}.

(** [tx.setWitness(index, witness)]: [this.ins[index].witness = witness]. *)
Definition setWitness (tx : t) (index : nat) (witness : list (list byte))
  : result t :=
  let* _ := checkWitness index witness in
  match ins tx !! index with
  | None =>
      Throw (TypeError
               "Cannot set properties of undefined (setting 'witness')")
  | Some input =>
      Ok {| version := version tx; locktime := locktime tx;
            ins := <[index :=
                       {| hash := hash input; index := Tx.index input;
                          script := script input;
                          sequence := sequence input;
                          witness := witness |}]> (ins tx);
            outs := outs tx |}
  end.

End Library.

End Tx.

Module BitcoinFetch.

Section Fetch.

Variable providerUrl : jsstring.
(** [axios.get(url)]: the body of the answer. *)
Variable get : jsstring -> result TxData.t.
Variable checkInput :
  list byte -> nat -> option Z -> option (list byte) -> result unit.
Variable checkOutput : list byte -> Z -> result unit.
Variable checkWitness : nat -> list (list byte) -> result unit.

(** The callback of the first [data.vin.forEach]: the hash is the
    transaction id with its bytes reversed; an empty [scriptsig] is falsy. *)
Definition addVin (tx : Tx.t) (vin : Vin.t) : result Tx.t :=
  let txHash := rev (fromHex (Vin.txid vin)) in
  let scriptSig :=
    match Vin.scriptsig vin with
    | Some (c :: s) => Some (fromHex (c :: s))
    | _ => None
    end in
  Tx.addInput checkInput tx txHash (Vin.vout vin) (Vin.sequence vin) scriptSig.

(** The callback of [data.vout.forEach]. *)
Definition addVout (tx : Tx.t) (vout : Vout.t) : result Tx.t :=
  Tx.addOutput checkOutput tx
    (fromHex (Vout.scriptpubkey vout)) (Vout.value vout).

(** The callback of the second [data.vin.forEach], from input [index] on:
    [if (vin.witness && vin.witness.length > 0)]. *)
Fixpoint setWitnesses (index : nat) (vins : list Vin.t) (tx : Tx.t)
  : result Tx.t :=
  match vins with
  | [] => Ok tx
  | vin :: vins' =>
      let* tx' :=
        match Vin.witness vin with
        | Some (w :: ws) =>
            Tx.setWitness checkWitness tx index (fromHex <$> (w :: ws))
        | _ => Ok tx
        end in
      setWitnesses (S index) vins' tx'
  end.

Definition fetchTransaction (transactionId : jsstring) : result Tx.t :=
  let* data := get (providerUrl ++ lit "/tx/" ++ transactionId) in
  let tx := Tx.create (TxData.version data) (TxData.locktime data) in
  let* tx := Bitcoin.forEach addVin (TxData.vin data) tx in
  let* tx := Bitcoin.forEach addVout (TxData.vout data) tx in
  setWitnesses 0 (TxData.vin data) tx.

(** What [handleTransaction] reads of it: [transaction.outs]. *)
Definition fetchTransactionOuts (transactionId : jsstring)
  : result (list Bitcoin.TxOut) :=
  let* transaction := fetchTransaction transactionId in
  Ok (Tx.outs transaction).

End Fetch.

End BitcoinFetch.

(** ** What the provider's answer stands for *)

(** The input and the output [fetchTransaction] builds from an entry of
    the answer; [bareInputOfVin] is the input before its witness is set. *)
Definition bareInputOfVin (vin : Vin.t) : Tx.input :=
  {| Tx.hash := rev (fromHex (Vin.txid vin));
     Tx.index := Vin.vout vin;
     Tx.script :=
       match Vin.scriptsig vin with
       | Some s => fromHex s
       | None => []
       end;
     Tx.sequence := default Tx.DEFAULT_SEQUENCE (Vin.sequence vin);
     Tx.witness := [] |}.

Definition inputOfVin (vin : Vin.t) : Tx.input :=
  {| Tx.hash := Tx.hash (bareInputOfVin vin);
     Tx.index := Tx.index (bareInputOfVin vin);
     Tx.script := Tx.script (bareInputOfVin vin);
     Tx.sequence := Tx.sequence (bareInputOfVin vin);
     Tx.witness :=
       match Vin.witness vin with
       | Some ws => fromHex <$> ws
       | None => []
       end |}.

Definition outputOfVout (vout : Vout.t) : Bitcoin.TxOut :=
  {| Bitcoin.script := fromHex (Vout.scriptpubkey vout);
     Bitcoin.outValue := Vout.value vout |}.

(** ** Lower-case hexadecimal *)

Definition isLowerHexDigit (c : ascii) : bool :=
  let n := N_of_ascii c in
  ((48 <=? n)%N && (n <=? 57)%N) || ((97 <=? n)%N && (n <=? 102)%N).

(** ** More sample inputs *)

(** A signer whose second answer is a rejection. *)
Definition rejectingSigner (calls : nat) (hash : list byte)
  : nat * result MPC.Signature :=
  (S calls,
   if calls =? 1 then Throw (Upstream "signer unavailable")
   else Ok sampleMPC).

Definition threeInputs : Bitcoin.BTCTransaction :=
  {| Bitcoin.to := lit "tb1qrecipient";
     Bitcoin.amount := lit "0.0001";
     Bitcoin.inputs :=
       Some [ {| Bitcoin.txid := lit "aa01"; Bitcoin.vout := 0;
                 Bitcoin.value := 5000 |};
              {| Bitcoin.txid := lit "bb02"; Bitcoin.vout := 1;
                 Bitcoin.value := 7000 |};
              {| Bitcoin.txid := lit "cc03"; Bitcoin.vout := 0;
                 Bitcoin.value := 9000 |} ];
     Bitcoin.outputs :=
       Some [ Bitcoin.AddressOutput (Some (lit "tb1qrecipient")) 20000 ] |}.

Definition rejectedRun : Bitcoin.World nat * result jsstring :=
  Bitcoin.handleTransaction (KeyDerivationPath := jsstring)
    tt (lit "https://btc.example") tt rejectingSigner sampleDerive
    sampleFeeProperties sampleOuts (fun ins => ins) samplePost
    (fun _ => ([] : SamplePsbt)) sampleAddInput sampleAddOutput
    sampleSighash sampleAddPartialSig (fun psbt => Ok psbt)
    (fun _ => Ok (lit "0200"))
    threeInputs sampleAuthentication (lit "bitcoin-1") freshWorld.

(** A provider's answer with two inputs, the second with a witness, and
    two outputs. *)
Definition sampleTxData : TxData.t :=
  {| TxData.version := 2;
     TxData.locktime := 0;
     TxData.vin :=
       [ {| Vin.txid := lit "0a0b0c"; Vin.vout := 1;
            Vin.sequence := Some 4294967293%Z;
            Vin.scriptsig := Some (lit "");
            Vin.witness := None |};
         {| Vin.txid := lit "a1b2"; Vin.vout := 0;
            Vin.sequence := None;
            Vin.scriptsig := Some (lit "51");
            Vin.witness := Some [lit "3044"; lit "02ab"] |} ];
     TxData.vout :=
       [ {| Vout.value := 5000; Vout.scriptpubkey := lit "0014aa" |};
         {| Vout.value := 7000; Vout.scriptpubkey := lit "0014bb" |} ] |}.

Definition sampleGet (url : jsstring) : result TxData.t := Ok sampleTxData.

Definition passInput
    (hash : list byte) (index : nat) (sequence : option Z)
    (scriptSig : option (list byte)) : result unit := Ok tt.
Definition passOutput (script : list byte) (value : Z) : result unit := Ok tt.
Definition passWitness (index : nat) (witness : list (list byte))
  : result unit := Ok tt.

(** ** A request with well-formed addresses *)

Definition validRequest : object :=
  <["from" := VString (lit "0x" ++ replicate 40 "a"%char)]>
    (<["to" := VString (lit "0x" ++ replicate 40 "b"%char)]>
       (<["value" := VString (lit "1000000000000000000")]> ∅)).

Definition validAttached : object :=
  delete "from" validRequest ∪
  <["type" := VNumber 2]>
    (<["nonce" := VNumber 7]>
       (<["chainId" := VBigInt 1]>
          (<["maxFeePerGas" := VBigInt 30]>
             (<["maxPriorityFeePerGas" := VBigInt 1]>
                (<["gasLimit" := VBigInt 21000]> ∅))))).

(** ** Two signatures handed over in either order *)

(** A compressed public key and the P2WPKH output script that pays to it. *)
Definition exampleKey : list byte :=
  fromHex
    (lit "0279be667ef9dcbbac55a06295ce870b07029bfcdb2dce28d959f2815b16f81798").
Definition exampleScript : list byte :=
  fromHex (lit "0014751e76e8199196d454941c45d1b3a323f1433bd6").

(** Two inputs that spend outputs of that script, not signed yet. *)
Definition inputA : Bitcoin.InputOptions :=
  {| Bitcoin.hash := replicate 64 "a"%char;
     Bitcoin.index := 0;
     Bitcoin.witnessUtxo := (exampleScript, 5000%Z) |}.
Definition inputB : Bitcoin.InputOptions :=
  {| Bitcoin.hash := replicate 64 "b"%char;
     Bitcoin.index := 1;
     Bitcoin.witnessUtxo := (exampleScript, 7000%Z) |}.
Definition unsignedPsbt : SamplePsbt := [(inputA, None); (inputB, None)].

(** Two answers of the signer, with the scalars of [sigA] and [sigB]. *)
Definition mpcA : MPC.Signature :=
  {| MPC.big_r := {| MPC.affine_point := lit "02" ++ RSV.r sigA |};
     MPC.s := {| MPC.scalar := RSV.s sigA |};
     MPC.recovery_id := 0 |}.
Definition mpcB : MPC.Signature :=
  {| MPC.big_r := {| MPC.affine_point := lit "03" ++ RSV.r sigB |};
     MPC.s := {| MPC.scalar := RSV.s sigB |};
     MPC.recovery_id := 1 |}.

(** A signer that answers its first call with [first] and every later
    call with [second]. *)
Definition answersInOrder (first second : MPC.Signature)
    (calls : nat) (hash : list byte) : nat * result MPC.Signature :=
  (S calls, Ok (if calls =? 0 then first else second)).

(** The signing loop of [handleTransaction] over the two inputs. *)
Definition signBoth (first second : MPC.Signature)
  : Bitcoin.World nat * result SamplePsbt :=
  Bitcoin.signInputs (answersInOrder first second) sampleSighash
    sampleAddPartialSig 2 0 exampleKey unsignedPsbt freshWorld.

(** Stand-ins for ethers that refuse what ethers refuses in these
    arguments: a recipient that is not [0x] and 40 hexadecimal digits, an
    [r] or [s] that is not [0x] and 64 hexadecimal digits, a [v] other
    than 0, 1, 27 and 28. *)
Definition isAddress (s : jsstring) : bool :=
  match s with
  | "0"%char :: "x"%char :: digits => isHex digits && (length digits =? 40)
  | _ => false
  end.

Definition checkedSerialized (transaction : object) : result jsstring :=
  match transaction !! "to" with
  | Some (VString recipient) =>
      if isAddress recipient then sampleSerialized transaction
      else Throw (Error "invalid address")
  | _ => Throw (Error "invalid address")
  end.

Definition isScalar (s : jsstring) : bool :=
  isBytesLikeString s && (length s =? 66).

Definition checkedSignature_from (r s : jsstring) (v : Z)
  : result Ethers.Signature :=
  if isScalar r && isScalar s
  then if (v =? 0)%Z || (v =? 27)%Z
       then Ok {| Ethers.r := r; Ethers.s := s; Ethers.v := 27 |}
       else if (v =? 1)%Z || (v =? 28)%Z
            then Ok {| Ethers.r := r; Ethers.s := s; Ethers.v := 28 |}
            else Throw (Error "invalid v")
  else Throw (Error "invalid signature").

(** The same request with a nonce and a fee limit of its own. *)
Definition validRequestWithNonce : object :=
  <["nonce" := VNumber 99]>
    (<["maxFeePerGas" := VBigInt 50]> validRequest).

(** ** A two-input spend of P2WPKH outputs *)

Definition exampleAddress : jsstring :=
  lit "tb1qw508d6qejxtdg4y5r3zarvary0c5xw7kxpjzsx".

Definition exampleDerive
    (signerId path : jsstring) (network networkId contracts : unit)
  : result (jsstring * list byte) :=
  Ok (exampleAddress, exampleKey).

Definition exampleOuts (txid : jsstring) : result (list Bitcoin.TxOut) :=
  Ok [ {| Bitcoin.script := exampleScript; Bitcoin.outValue := 5000 |};
       {| Bitcoin.script := exampleScript; Bitcoin.outValue := 7000 |} ].

Definition exampleSpend : Bitcoin.BTCTransaction :=
  {| Bitcoin.to := exampleAddress;
     Bitcoin.amount := lit "0.0001";
     Bitcoin.inputs :=
       Some [ {| Bitcoin.txid := replicate 64 "a"%char; Bitcoin.vout := 0;
                 Bitcoin.value := 5000 |};
              {| Bitcoin.txid := replicate 64 "b"%char; Bitcoin.vout := 1;
                 Bitcoin.value := 7000 |} ];
     Bitcoin.outputs :=
       Some [ Bitcoin.AddressOutput (Some exampleAddress) 10000;
              Bitcoin.AddressOutput None 1500 ] |}.

(** Finalization refuses an input without a signature; the extracted
    transaction lists every input with the signature it carries. *)
Definition exampleFinalize (psbt : SamplePsbt) : result SamplePsbt :=
  if forallb (fun entry => bool_decide (is_Some entry.2)) psbt
  then Ok psbt
  else Throw (Error "No signatures for this input").

Definition exampleExtract (psbt : SamplePsbt) : result jsstring :=
  Ok (lit "02" ++
      flat_map (fun entry => Bitcoin.hash entry.1 ++ toHex (default [] entry.2))
        psbt).

Definition examplePost (url body : jsstring) : result (Z * option jsstring) :=
  Ok (200%Z, Some (replicate 64 "c"%char)).

(** A stand-in for [JSON.stringify] that shows the chain id it is given
    and, as [JSON.stringify] does, throws on a bigint. *)
Definition showChainId (o : object) : result jsstring :=
  match o !! "chainId" with
  | Some (VString text) => Ok (lit "chainId:" ++ text)
  | Some (VBigInt _) => Throw (TypeError "Do not know how to serialize a BigInt")
  | _ => Ok (lit "no chainId")
  end.

(** ** A provider's answer with well-formed entries *)

(** The argument checks of [addInput] and [addOutput]: a hash of 32
    bytes, an output number and a sequence of 32 bits, an amount between
    zero and 21 million coins. *)
Definition strictInput
    (hash : list byte) (index : nat) (sequence : option Z)
    (scriptSig : option (list byte)) : result unit :=
  if (length hash =? 32) && (Z.of_nat index <? 2 ^ 32)%Z &&
     match sequence with
     | Some n => (0 <=? n)%Z && (n <? 2 ^ 32)%Z
     | None => true
     end
  then Ok tt
  else Throw (TypeError "Expected a 32-byte hash and 32-bit numbers").

Definition strictOutput (script : list byte) (value : Z) : result unit :=
  if (0 <=? value)%Z && (value <=? 2100000000000000)%Z then Ok tt
  else Throw (TypeError "Expected an amount in satoshi").

Definition exampleTxData : TxData.t :=
  {| TxData.version := 2;
     TxData.locktime := 0;
     TxData.vin :=
       [ {| Vin.txid := replicate 64 "a"%char; Vin.vout := 1;
            Vin.sequence := Some 4294967293%Z;
            Vin.scriptsig := Some (lit "");
            Vin.witness := Some [lit "3044"; lit "02ab"] |};
         {| Vin.txid := lit "0123456789abcdef" ++ replicate 48 "0"%char;
            Vin.vout := 0;
            Vin.sequence := None;
            Vin.scriptsig := Some (lit "51");
            Vin.witness := None |} ];
     TxData.vout :=
       [ {| Vout.value := 5000;
            Vout.scriptpubkey :=
              lit "0014751e76e8199196d454941c45d1b3a323f1433bd6" |};
         {| Vout.value := 7000;
            Vout.scriptpubkey :=
              lit "0014751e76e8199196d454941c45d1b3a323f1433bd6" |} ] |}.

Definition exampleGet (url : jsstring) : result TxData.t := Ok exampleTxData.

(** ** Sample inputs at the edges *)

(** A signature whose [r] has 65 hexadecimal digits. *)
Definition overlongR : RSV.Signature :=
  {| RSV.r := replicate 65 "f"%char; RSV.s := lit "01"; RSV.v := 0 |}.

(** * Properties *)

(** ** Strings and hexadecimal *)

Lemma length_padStart target fill (s : jsstring) :
  length (padStart target fill s) = Nat.max target (length s).
Proof.
  unfold padStart. case_decide as Hlen.
  - lia.
  - rewrite length_app, length_replicate. lia.
Qed.

Lemma padStart_id target fill (s : jsstring) :
  target <= length s -> padStart target fill s = s.
Proof. intros Hlen. unfold padStart. by case_decide. Qed.

Lemma isHex_app (a b : jsstring) : isHex (a ++ b) = isHex a && isHex b.
Proof. apply forallb_app. Qed.

Lemma isHex_replicate_zero n : isHex (replicate n "0"%char) = true.
Proof. induction n as [|n IH]; [done|]. simpl. exact IH. Qed.

Lemma isHex_padStart target (s : jsstring) :
  isHex (padStart target "0" s) = isHex s.
Proof.
  unfold padStart. case_decide; [done|].
  by rewrite isHex_app, isHex_replicate_zero.
Qed.

Lemma isHex_drop n (s : jsstring) : isHex s = true -> isHex (drop n s) = true.
Proof.
  revert n. induction s as [|c s IH]; intros [|n] Hs; simpl in *; try done.
  apply andb_prop in Hs as [_ Hs]. by apply IH.
Qed.

Lemma substring_drop (n : nat) (s : jsstring) :
  substring (Z.of_nat n) s = drop n s.
Proof.
  unfold substring.
  destruct (decide (n <= length s)) as [Hle|Hgt].
  - f_equal. lia.
  - rewrite (drop_ge s n) by lia. apply drop_ge. lia.
Qed.

Lemma slice_from (n : nat) (s : jsstring) :
  slice (Z.of_nat n) None s = drop n s.
Proof.
  unfold slice, rel_index.
  destruct (Z.ltb_spec (Z.of_nat n) 0) as [Hneg|_]; [lia|].
  destruct (decide (n <= length s)) as [Hle|Hgt].
  - replace (Z.to_nat (Z.min (Z.of_nat n) (Z.of_nat (length s)))) with n by lia.
    apply take_ge. rewrite length_drop. lia.
  - rewrite (drop_ge s n) by lia.
    rewrite drop_ge by lia. by destruct (Z.to_nat _).
Qed.

Lemma slice_prefix (n : nat) (s : jsstring) :
  slice 0 (Some (Z.of_nat n)) s = take n s.
Proof.
  unfold slice, rel_index. simpl.
  destruct (Z.ltb_spec (Z.of_nat n) 0) as [Hneg|_]; [lia|].
  replace (Z.to_nat (Z.min 0 (Z.of_nat (length s)))) with 0 by lia.
  rewrite drop_0.
  destruct (decide (n <= length s)) as [Hle|Hgt].
  - f_equal. lia.
  - rewrite (take_ge s n) by lia. apply take_ge. lia.
Qed.

Lemma slice_last_char (s : jsstring) (c : ascii) :
  slice (-1) None (s ++ [c]) = [c].
Proof.
  unfold slice, rel_index. simpl. rewrite length_app. simpl.
  replace (Z.to_nat (Z.max (Z.of_nat (length s + 1) + -1) 0)) with (length s)
    by lia.
  rewrite drop_app_length.
  by replace (Z.to_nat _) with 1 by lia.
Qed.

Lemma length_toHex (buf : list byte) : length (toHex buf) = 2 * length buf.
Proof. induction buf as [|b buf IH]; simpl; lia. Qed.

Lemma toHex_app (a b : list byte) : toHex (a ++ b) = toHex a ++ toHex b.
Proof.
  induction a as [|x a IH]; [done|].
  simpl. by rewrite IH.
Qed.

Lemma fromHex_hex_of_byte (b : byte) (s : jsstring) :
  fromHex (hex_of_byte b ++ s) = b :: fromHex s.
Proof. destruct b; reflexivity. Qed.

Lemma isHex_hex_of_byte (b : byte) (s : jsstring) :
  isHex (hex_of_byte b ++ s) = isHex s.
Proof. destruct b; reflexivity. Qed.

(** Decoding undoes encoding. *)
Lemma fromHex_toHex (buf : list byte) : fromHex (toHex buf) = buf.
Proof.
  induction buf as [|b buf IH]; [done|].
  cbn [toHex]. by rewrite fromHex_hex_of_byte, IH.
Qed.

Lemma isHex_toHex (buf : list byte) : isHex (toHex buf) = true.
Proof.
  induction buf as [|b buf IH]; [done|].
  cbn [toHex]. by rewrite isHex_hex_of_byte.
Qed.

Lemma toHex_take n (buf : list byte) :
  toHex (take n buf) = take (2 * n) (toHex buf).
Proof.
  revert n. induction buf as [|b buf IH]; intros [|n]; try done.
  replace (2 * S n) with (S (S (2 * n))) by lia.
  simpl. by rewrite IH.
Qed.

Lemma toHex_drop n (buf : list byte) :
  toHex (drop n buf) = drop (2 * n) (toHex buf).
Proof.
  revert n. induction buf as [|b buf IH]; intros [|n]; try done.
  replace (2 * S n) with (S (S (2 * n))) by lia.
  simpl. by rewrite IH.
Qed.

(** A string of [2 * n] hexadecimal digits decodes to [n] bytes, and what
    follows it is decoded independently. *)
Lemma fromHex_app_hex n (a b : jsstring) :
  length a = 2 * n -> isHex a = true ->
  fromHex (a ++ b) = fromHex a ++ fromHex b /\ length (fromHex a) = n.
Proof.
  revert a. induction n as [|n IH]; intros a Hlen Hhex.
  - destruct a; [|done]. split; [done|]. by destruct b as [|? [|? ?]].
  - destruct a as [|x [|y a]]; simpl in Hlen; try lia.
    cbn [isHex forallb] in Hhex.
    apply andb_prop in Hhex as [Hx Hhex]. apply andb_prop in Hhex as [Hy Hhex].
    unfold isHexDigit in Hx, Hy.
    destruct (IH a) as [Happ Hn]; [lia|done|].
    cbn [app fromHex].
    destruct (unhex x); [|done]. destruct (unhex y); [|done].
    rewrite Happ. simpl. by rewrite Hn.
Qed.

(** Decoding never yields more than one byte per two characters. *)
Lemma length_fromHex_le (s : jsstring) : 2 * length (fromHex s) <= length s.
Proof.
  assert (H : forall n (t : jsstring), length t <= n ->
                                       2 * length (fromHex t) <= length t).
  { induction n as [|n IH]; intros t Hn.
    - destruct t; simpl in *; lia.
    - destruct t as [|x [|y t]]; simpl; try lia.
      destruct (unhex x); [|simpl; lia]. destruct (unhex y); [|simpl; lia].
      simpl in Hn. specialize (IH t). simpl. lia. }
  by apply (H (length s)).
Qed.
Example padStart_short : padStart 4 "0" (lit "ab") = lit "00ab".
Proof. reflexivity. Qed.

Example padStart_long : padStart 4 "0" (lit "abcdef") = lit "abcdef".
Proof. reflexivity. Qed.

Example slice_last : slice (-1) None (lit "abc") = lit "c".
Proof. reflexivity. Qed.

Example slice_range : slice 0 (Some 2%Z) (lit "abc") = lit "ab".
Proof. reflexivity. Qed.

Example split_colon :
  split ":" (lit "secp256k1:abc") = [lit "secp256k1"; lit "abc"].
Proof. reflexivity. Qed.

Example fromHex_odd : fromHex (lit "0aFf1") = [x0a; xff].
Proof. reflexivity. Qed.

Example fromHex_stops : fromHex (lit "0azz11") = [x0a].
Proof. reflexivity. Qed.

Example toHex_bytes : toHex [x0a; xff] = lit "0aff".
Proof. reflexivity. Qed.

Example parseInt16_digit : parseInt16 (lit "f") = Some 15%Z.
Proof. reflexivity. Qed.

(** ** Normalising the MPC signature *)

Lemma scalarHex_intro (s : jsstring) :
  length s = 64 -> isHex s = true -> scalarHex s.
Proof.
  intros Hlen Hhex. repeat split; try done.
  pose proof (fromHex_app_hex 32 s [] Hlen Hhex) as [_ H]. exact H.
Qed.

(** C5. For a well-formed MPC signature, [toRSV] returns as [r] the
    curve-point component without its first two characters (the encoding
    prefix), as [s] the scalar component unchanged and as [v] the recovery
    id unchanged; [r] and [s] are then 32-byte scalars in hexadecimal. *)
Theorem toRSV_normalises (signature : MPC.Signature) :
  wellFormedMPC signature ->
  RSV.r (toRSV signature) = drop 2 (MPC.affine_point (MPC.big_r signature)) /\
  RSV.s (toRSV signature) = MPC.scalar (MPC.s signature) /\
  RSV.v (toRSV signature) = MPC.recovery_id signature /\
  scalarHex (RSV.r (toRSV signature)) /\
  scalarHex (RSV.s (toRSV signature)).
Proof.
  intros (Hrlen & Hrhex & Hslen & Hshex).
  unfold toRSV. cbn [RSV.r RSV.s RSV.v].
  change 2%Z with (Z.of_nat 2). rewrite substring_drop.
  split; [done|]. split; [done|]. split; [done|]. split.
  - apply scalarHex_intro; [rewrite length_drop; lia|by apply isHex_drop].
  - by apply scalarHex_intro.
Qed.

Lemma toRSV_normalises_witness :
  wellFormedMPC sampleMPC /\
  RSV.r (toRSV sampleMPC) = toHex (replicate 31 x00 ++ [x7b]) /\
  scalarHex (RSV.s (toRSV sampleMPC)).
Proof.
  assert (Hwf : wellFormedMPC sampleMPC) by (by repeat split).
  split; [exact Hwf|].
  destruct (toRSV_normalises sampleMPC Hwf) as (Hr & _ & _ & _ & Hs).
  split; [exact Hr|exact Hs].
Defined.

(** ** Bitcoin signature encoding *)

(** The two branches of [parseRSVSignature]. *)
Lemma parseRSVSignature_cases (signature : RSV.Signature) :
  let padded := padStart 64 "0" (RSV.r signature) ++
                padStart 64 "0" (RSV.s signature) in
  (length (fromHex padded) = 64 /\
   parseRSVSignature signature = Ok (fromHex padded)) \/
  (length (fromHex padded) <> 64 /\
   parseRSVSignature signature = Throw (Error "Invalid signature length.")).
Proof.
  intros padded. unfold parseRSVSignature. fold padded.
  destruct (Nat.eqb_spec (length (fromHex padded)) 64) as [Heq|Hne]; simpl.
  - by left.
  - by right.
Qed.

(** Scalars of at most 64 hexadecimal digits are always encoded: the
    first 32 bytes are [r], the last 32 bytes are [s], each padded with
    zero bytes on the left. *)
Lemma parseRSVSignature_scalars (signature : RSV.Signature) :
  isHex (RSV.r signature) = true -> length (RSV.r signature) <= 64 ->
  isHex (RSV.s signature) = true -> length (RSV.s signature) <= 64 ->
  parseRSVSignature signature =
    Ok (fromHex (padStart 64 "0" (RSV.r signature)) ++
        fromHex (padStart 64 "0" (RSV.s signature))) /\
  length (fromHex (padStart 64 "0" (RSV.r signature))) = 32 /\
  length (fromHex (padStart 64 "0" (RSV.s signature))) = 32.
Proof.
  intros Hr Hrlen Hs Hslen.
  set (r := padStart 64 "0" (RSV.r signature)).
  set (s := padStart 64 "0" (RSV.s signature)).
  assert (Hlr : length r = 2 * 32)
    by (unfold r; rewrite length_padStart; lia).
  assert (Hls : length s = 2 * 32)
    by (unfold s; rewrite length_padStart; lia).
  assert (Hhr : isHex r = true) by (unfold r; by rewrite isHex_padStart).
  assert (Hhs : isHex s = true) by (unfold s; by rewrite isHex_padStart).
  destruct (fromHex_app_hex 32 r s Hlr Hhr) as [Happ Hnr].
  destruct (fromHex_app_hex 32 s [] Hls Hhs) as [_ Hns].
  split; [|done].
  destruct (parseRSVSignature_cases signature) as [[_ ->]|[Hne _]].
  - fold r s. by rewrite Happ.
  - exfalso. apply Hne. fold r s. rewrite Happ, length_app. lia.
Qed.

(** C2, as the code has it. [parseRSVSignature] either returns the
    buffer decoded from [r] and [s], each padded on the left with zeros
    to 64 digits and concatenated, [r] first, and that buffer has exactly
    64 bytes; or it throws ['Invalid signature length.']. It returns no
    buffer of any other length. For scalars of at most 64 hexadecimal
    digits it always returns, and the two halves of the buffer are [r]
    and [s], each padded to 32 bytes. *)
Theorem parseRSVSignature_64_bytes_or_error (signature : RSV.Signature) :
  ((exists buf,
       parseRSVSignature signature = Ok buf /\
       length buf = 64 /\
       buf = fromHex (padStart 64 "0" (RSV.r signature) ++
                      padStart 64 "0" (RSV.s signature))) \/
   parseRSVSignature signature = Throw (Error "Invalid signature length.")) /\
  (isHex (RSV.r signature) = true -> length (RSV.r signature) <= 64 ->
   isHex (RSV.s signature) = true -> length (RSV.s signature) <= 64 ->
   exists rBytes sBytes,
     parseRSVSignature signature = Ok (rBytes ++ sBytes) /\
     length rBytes = 32 /\ length sBytes = 32 /\
     rBytes = fromHex (padStart 64 "0" (RSV.r signature)) /\
     sBytes = fromHex (padStart 64 "0" (RSV.s signature))).
Proof.
  split.
  - destruct (parseRSVSignature_cases signature) as [[Hlen Hok]|[_ Herr]].
    + left. eexists. by split; [exact Hok|].
    + by right.
  - intros Hr Hrlen Hs Hslen.
    destruct (parseRSVSignature_scalars signature Hr Hrlen Hs Hslen)
      as (Hok & Hnr & Hns).
    by eexists _, _.
Qed.

Lemma parseRSVSignature_64_bytes_or_error_witness :
  parseRSVSignature sampleRSV =
    Ok ((replicate 31 x00 ++ [x7b]) ++ (replicate 30 x00 ++ [x01; xea])).
Proof.
  destruct (parseRSVSignature_64_bytes_or_error sampleRSV) as [_ H].
  destruct H as (rBytes & sBytes & Hok & _ & _ & -> & ->);
    [reflexivity|simpl; lia|reflexivity|simpl; lia|].
  exact Hok.
Defined.

(** C2 as stated fails. An [r] of 65 digits next to a short [s] passes
    the length check: the buffer has 64 bytes, but they are not [r] and
    [s] padded to 32 bytes each; the second half begins with the last
    digit of [r], and [s] is lost. *)
Lemma parseRSVSignature_overlong_r :
  parseRSVSignature overlongR =
    Ok (replicate 32 xff ++ xf0 :: replicate 31 x00) /\
  replicate 32 xff ++ xf0 :: replicate 31 x00 <>
    fromHex (padStart 64 "0" (RSV.r overlongR)) ++
    fromHex (padStart 64 "0" (RSV.s overlongR)) /\
  drop 32 (replicate 32 xff ++ xf0 :: replicate 31 x00) <>
    fromHex (padStart 64 "0" (RSV.s overlongR)).
Proof. split; [reflexivity|]. split; by vm_compute. Qed.

(** The error is reached: by an [r] of 33 bytes, and by an [r] that is
    not hexadecimal. *)
Example parseRSVSignature_long_r :
  parseRSVSignature
    {| RSV.r := toHex (replicate 33 xff); RSV.s := lit "01"; RSV.v := 0 |} =
  Throw (Error "Invalid signature length.").
Proof. reflexivity. Qed.

Example parseRSVSignature_not_hex :
  parseRSVSignature
    {| RSV.r := lit "xyz"; RSV.s := lit "01"; RSV.v := 0 |} =
  Throw (Error "Invalid signature length.").
Proof. reflexivity. Qed.

(** ** Root keys in NEAR format *)

Lemma bigEndian_snoc (buf : list byte) (b : byte) :
  bigEndian (buf ++ [b]) = (256 * bigEndian buf + Byte.to_N b)%N.
Proof. unfold bigEndian. by rewrite fold_left_app. Qed.

(** The parity of a number is the parity of its last byte. *)
Lemma even_bigEndian_snoc (buf : list byte) (b : byte) :
  N.even (bigEndian (buf ++ [b])) = N.even (Byte.to_N b).
Proof.
  rewrite bigEndian_snoc.
  replace (256 * bigEndian buf + Byte.to_N b)%N
    with (Byte.to_N b + 2 * (128 * bigEndian buf))%N by lia.
  apply N.even_add_mul_2.
Qed.

(** The test [parseInt(y.slice(-1), 16) % 2 === 0] on the last digit of an
    encoded byte. *)
Lemma isEven_low_digit (b : byte) :
  isEvenNumber (parseInt16 [hexdigit (Byte.to_N b mod 16)]) =
  N.even (Byte.to_N b).
Proof. destruct b; reflexivity. Qed.

Lemma toHex_snoc (buf : list byte) (b : byte) :
  toHex (buf ++ [b]) =
  (toHex buf ++ [hexdigit (Byte.to_N b / 16)]) ++
  [hexdigit (Byte.to_N b mod 16)].
Proof. rewrite toHex_app. simpl. by rewrite <- app_assoc. Qed.

Lemma isEven_last_digit (buf : list byte) :
  buf <> [] ->
  isEvenNumber (parseInt16 (slice (-1) None (toHex buf))) =
  N.even (bigEndian buf).
Proof.
  intros Hne.
  destruct (exists_last Hne) as (init & b & ->).
  by rewrite toHex_snoc, slice_last_char, isEven_low_digit, even_bigEndian_snoc.
Qed.

Section NajKeysTheory.

Variable base_decode : option jsstring -> result (list byte).

Abbreviation encodedKey najPubKey := (split ":" najPubKey !! 1).

(** Without compression nothing but the decoding can fail. *)
Lemma najToPubKey_uncompressed (najPubKey : jsstring) :
  najToPubKey base_decode najPubKey false =
  let* decoded := base_decode (encodedKey najPubKey) in
  Ok (lit "04" ++ toHex decoded).
Proof. reflexivity. Qed.

(** With compression, the decoded key goes through the length check. *)
Lemma najToPubKey_compress (najPubKey : jsstring) (decoded : list byte) :
  base_decode (encodedKey najPubKey) = Ok decoded ->
  najToPubKey base_decode najPubKey true =
  if negb (length (toHex decoded) =? 128)
  then Throw (Error "Invalid uncompressed public key length")
  else Ok ((if N.even (bigEndian (drop 32 decoded))
            then lit "02" else lit "03") ++ toHex (take 32 decoded)).
Proof.
  intros Hdec. unfold najToPubKey. rewrite Hdec. cbn [bind negb].
  change (startsWith (lit "04") (lit "04" ++ toHex decoded)) with true.
  cbn iota.
  change 2%Z with (Z.of_nat 2). rewrite slice_from.
  change (drop 2 (lit "04" ++ toHex decoded)) with (toHex decoded).
  destruct (Nat.eqb_spec (length (toHex decoded)) 128) as [Hlen|Hlen];
    [|done].
  cbn [negb]. rewrite length_toHex in Hlen.
  change 64%Z with (Z.of_nat 64). rewrite slice_from, slice_prefix.
  change 64 with (2 * 32).
  rewrite <- toHex_take, <- toHex_drop.
  rewrite isEven_last_digit; [done|].
  intros Hnil. apply (f_equal length) in Hnil.
  rewrite length_drop in Hnil. simpl in Hnil. lia.
Qed.

(** C8. When the decoded key has 128 hexadecimal digits (the coordinates
    x and y, 32 bytes each), [najToPubKey] with [compress: true] returns
    66 digits (33 bytes): [02] when y is even and [03] when y is odd,
    followed by the 64 digits of x. *)
Theorem najToPubKey_compressed (najPubKey : jsstring) (decoded : list byte) :
  base_decode (encodedKey najPubKey) = Ok decoded ->
  length (toHex decoded) = 128 ->
  let x := take 32 decoded in
  let y := drop 32 decoded in
  exists compressed,
    najToPubKey base_decode najPubKey true = Ok compressed /\
    compressed =
      (if N.even (bigEndian y) then lit "02" else lit "03") ++ toHex x /\
    length (toHex x) = 64 /\
    length compressed = 66 /\
    length (fromHex compressed) = 33.
Proof.
  intros Hdec Hlen x y.
  rewrite (najToPubKey_compress _ _ Hdec), Hlen. cbn [Nat.eqb negb].
  eexists. split; [reflexivity|]. split; [reflexivity|].
  assert (Hx : length (toHex x) = 64).
  { unfold x. rewrite length_toHex, length_take.
    rewrite length_toHex in Hlen. lia. }
  split; [exact Hx|].
  assert (Hprefix : forall p : jsstring,
             p = lit "02" \/ p = lit "03" ->
             length (p ++ toHex x) = 66 /\
             length (fromHex (p ++ toHex x)) = 33).
  { intros p Hp.
    assert (Hp2 : length p = 2 /\ isHex p = true)
      by (destruct Hp as [-> | ->]; done).
    destruct Hp2 as [Hp2 Hph].
    split; [rewrite length_app; lia|].
    apply (fromHex_app_hex 33 (p ++ toHex x) []).
    - rewrite length_app. lia.
    - by rewrite isHex_app, Hph, isHex_toHex. }
  subst x y.
  destruct (N.even (bigEndian (drop 32 decoded))); apply Hprefix; auto.
Qed.

(** C10. With [compress: false], [najToPubKey] returns [04] followed by
    the hexadecimal form of the decoded key and checks no length: a
    decoded key of any other length than 64 bytes is returned as it is,
    while the same key is refused with ['Invalid uncompressed public key
    length'] when compression is asked for. *)
Theorem najToPubKey_uncompressed_unchecked (najPubKey : jsstring) :
  najToPubKey base_decode najPubKey false =
    (let* decoded := base_decode (encodedKey najPubKey) in
     Ok (lit "04" ++ toHex decoded)) /\
  forall decoded,
    base_decode (encodedKey najPubKey) = Ok decoded ->
    length decoded <> 64 ->
    najToPubKey base_decode najPubKey false = Ok (lit "04" ++ toHex decoded) /\
    najToPubKey base_decode najPubKey true =
      Throw (Error "Invalid uncompressed public key length").
Proof.
  split; [apply najToPubKey_uncompressed|].
  intros decoded Hdec Hlen. split.
  - by rewrite najToPubKey_uncompressed, Hdec.
  - rewrite (najToPubKey_compress _ _ Hdec), length_toHex.
    destruct (Nat.eqb_spec (2 * length decoded) 128) as [Heq|_]; [lia|done].
Qed.

(** C7, as the code has it. With [compress: true], a root key whose
    decoded form is not 64 bytes long is refused with ['Invalid
    uncompressed public key length'] and no key is returned; a key of 64
    bytes is never refused. *)
Theorem najToPubKey_compress_checks_length
    (najPubKey : jsstring) (decoded : list byte) :
  base_decode (encodedKey najPubKey) = Ok decoded ->
  (length decoded <> 64 ->
   najToPubKey base_decode najPubKey true =
     Throw (Error "Invalid uncompressed public key length")) /\
  (length decoded = 64 ->
   isOk (najToPubKey base_decode najPubKey true) = true).
Proof.
  intros Hdec.
  rewrite (najToPubKey_compress _ _ Hdec), length_toHex.
  split; intros Hlen.
  - destruct (Nat.eqb_spec (2 * length decoded) 128) as [Heq|_]; [lia|done].
  - by rewrite Hlen.
Qed.

End NajKeysTheory.

Example bs58_decode_ones :
  bs58_decode (Some (lit "112")) = Ok [x00; x00; x01].
Proof. reflexivity. Qed.

Example bs58_decode_hello :
  bs58_decode (Some (lit "StV1DL6CwTryKyV")) =
    Ok [x68; x65; x6c; x6c; x6f; x20; x77; x6f; x72; x6c; x64].
Proof. reflexivity. Qed.

Example bs58_decode_invalid :
  bs58_decode (Some (lit "0OIl")) = Throw (Error "Non-base58 character").
Proof. reflexivity. Qed.

Example bs58_decode_zeroKey :
  bs58_decode (split ":" zeroKey !! 1) = Ok (replicate 64 x00).
Proof. reflexivity. Qed.

Example bs58_decode_shortKey :
  bs58_decode (split ":" shortKey !! 1) = Ok [x01].
Proof. reflexivity. Qed.

Lemma najToPubKey_compressed_witness :
  najToPubKey bs58_decode zeroKey true =
    Ok (lit "02" ++ replicate 64 "0"%char).
Proof.
  destruct (najToPubKey_compressed bs58_decode zeroKey (replicate 64 x00))
    as (compressed & Hok & -> & _); [reflexivity|reflexivity|].
  exact Hok.
Defined.

Lemma najToPubKey_uncompressed_unchecked_witness :
  najToPubKey bs58_decode shortKey false = Ok (lit "0401") /\
  najToPubKey bs58_decode shortKey true =
    Throw (Error "Invalid uncompressed public key length").
Proof.
  destruct (najToPubKey_uncompressed_unchecked bs58_decode shortKey)
    as [_ H].
  apply (H [x01]); [reflexivity|simpl; lia].
Defined.

Lemma najToPubKey_compress_checks_length_witness :
  najToPubKey bs58_decode shortKey true =
    Throw (Error "Invalid uncompressed public key length") /\
  isOk (najToPubKey bs58_decode zeroKey true) = true.
Proof.
  split.
  - apply (najToPubKey_compress_checks_length bs58_decode shortKey [x01]);
      [reflexivity|simpl; lia].
  - apply (najToPubKey_compress_checks_length bs58_decode zeroKey
             (replicate 64 x00)); reflexivity.
Defined.

(** C7 as stated fails: key derivation accepts a root key of one byte when
    no compression is asked for, and returns it. *)
Lemma najToPubKey_accepts_short_key :
  bs58_decode (split ":" shortKey !! 1) = Ok [x01] /\
  najToPubKey bs58_decode shortKey false = Ok (lit "0401").
Proof. split; reflexivity. Qed.

(** ** Results *)

Lemma bind_Ok_inv {A B : Type} (r : result A) (k : A -> result B) (b : B) :
  bind r k = Ok b -> exists a, r = Ok a /\ k a = Ok b.
Proof. destruct r as [a|e]; [eauto|done]. Qed.

Ltac bind_inv H :=
  let a := fresh "a" in
  let Ha := fresh "H" a in
  apply bind_Ok_inv in H as (a & Ha & H).

(** ** The helpers of ethers *)

Lemma even_length_toHex (buf : list byte) :
  Nat.even (length (toHex buf)) = true.
Proof.
  rewrite length_toHex. apply Nat.even_spec. by exists (length buf).
Qed.

(** [getBytes] undoes [hexlify]. *)
Lemma getBytes_hexlify (buf : list byte) :
  getBytes (HexString (hexlify buf)) = Ok buf.
Proof.
  unfold getBytes, hexlify. cbn [lit list_ascii_of_string app isBytesLikeString].
  rewrite isHex_toHex, even_length_toHex. cbn [andb drop].
  by rewrite drop_0, fromHex_toHex.
Qed.

Lemma length_hexlify (buf : list byte) :
  length (hexlify buf) = 2 + 2 * length buf.
Proof. unfold hexlify. rewrite length_app, length_toHex. done. Qed.

(** ** The EVM adapter *)

Section EVMTheory.

Context {KeyDerivationPath : Type}.
Variable keccak256_bytes : list byte -> list byte.
Variable connectionUrl : jsstring.
Variable chainId : Z.
Variable getTransactionCount : jsval -> result Z.
Variable fetchEVMFeeProperties : jsstring -> object -> result object.
Variable getDerivedPublicKey :
  KeyDerivationPath -> jsstring -> result (option jsstring).
Variable unsignedSerialized : object -> result jsstring.
Variable serialized : object -> result jsstring.
Variable Signature_from : jsstring -> jsstring -> Z -> result Ethers.Signature.

Abbreviation keccak256 := (EVM.keccak256 keccak256_bytes).
Abbreviation attachGasAndNonce :=
  (EVM.attachGasAndNonce connectionUrl chainId getTransactionCount
     fetchEVMFeeProperties).
Abbreviation deriveAddressAndPublicKey :=
  (EVM.deriveAddressAndPublicKey keccak256_bytes getDerivedPublicKey).
Abbreviation getMPCPayloadAndTransaction :=
  (EVM.getMPCPayloadAndTransaction keccak256_bytes connectionUrl chainId
     getTransactionCount fetchEVMFeeProperties unsignedSerialized).
Abbreviation parseSignature := (EVM.parseSignature Signature_from).
Abbreviation addSignature := (EVM.addSignature serialized Signature_from).

(** The hash of a buffer, and the hash of the bytes a string stands for. *)
Lemma keccak256_bytesOf (buf : list byte) :
  keccak256 (BytesOf buf) = Ok (hexlify (keccak256_bytes buf)).
Proof. reflexivity. Qed.

Lemma keccak256_Ok_inv (data : BytesLike) (hash : jsstring) :
  keccak256 data = Ok hash ->
  exists bytes,
    getBytes data = Ok bytes /\ hash = hexlify (keccak256_bytes bytes).
Proof.
  unfold EVM.keccak256. intros H. bind_inv H.
  exists a. split; [done|]. by injection H.
Qed.

(** The fields [attachGasAndNonce] attaches: the [from] of the request
    is dropped, every other field of the request is kept, and [type],
    [nonce], [chainId] and the fee fields fill in what the request leaves
    out. *)
Lemma attachGasAndNonce_Ok_inv (request transaction : object) :
  attachGasAndNonce request = Ok transaction ->
  exists fees nonce,
    fetchEVMFeeProperties connectionUrl request = Ok fees /\
    getTransactionCount (prop "from" request) = Ok nonce /\
    transaction =
      delete "from" request ∪
      <["type" := VNumber 2]>
        (<["nonce" := VNumber nonce]>
           (<["chainId" := VBigInt chainId]> fees)).
Proof.
  unfold EVM.attachGasAndNonce. intros H.
  bind_inv H. bind_inv H. injection H as <-. eauto.
Qed.

(** Field by field: the [from] of the request is dropped, the request
    decides every other field it has, and [type], [nonce], [chainId] and
    the fee fields fill in the rest, in this order of precedence. *)
Lemma attachGasAndNonce_lookup (request transaction : object) :
  attachGasAndNonce request = Ok transaction ->
  exists fees nonce,
    fetchEVMFeeProperties connectionUrl request = Ok fees /\
    getTransactionCount (prop "from" request) = Ok nonce /\
    forall name : string,
      transaction !! name =
      let attached :=
        if decide (name = "type") then Some (VNumber 2)
        else if decide (name = "nonce") then Some (VNumber nonce)
        else if decide (name = "chainId") then Some (VBigInt chainId)
        else fees !! name in
      if decide (name = "from") then attached
      else match request !! name with
           | Some v => Some v
           | None => attached
           end.
Proof.
  intros H.
  apply attachGasAndNonce_Ok_inv in H as (fees & nonce & Hfees & Hnonce & ->).
  exists fees, nonce. split; [done|]. split; [done|].
  intros name. cbn zeta.
  rewrite lookup_union, lookup_delete, !lookup_insert.
  repeat case_decide; simplify_eq; try done;
    repeat case_match; simplify_eq; try done;
    by destruct (fees !! _).
Qed.

(** C3. When [getMPCPayloadAndTransaction] returns, the transaction it
    returns is the request without its [from], with [type: 2], the nonce
    the provider counts for [from], the chain id of the provider's
    network and the fetched fee fields attached (each where the request
    has no field of that name), and there is exactly one payload: its
    index is 0 and its bytes are the Keccak-256 hash of the bytes of the
    unsigned serialized form of that transaction. It returns whenever the
    collaborators deliver the fees, the nonce and the serialization. *)
Theorem getMPCPayloadAndTransaction_single_payload (request : object) :
  (forall res,
      getMPCPayloadAndTransaction request = Ok res ->
      exists fees nonce txSerialized unsignedBytes,
        fetchEVMFeeProperties connectionUrl request = Ok fees /\
        getTransactionCount (prop "from" request) = Ok nonce /\
        EVM.transaction res =
          delete "from" request ∪
          <["type" := VNumber 2]>
            (<["nonce" := VNumber nonce]>
               (<["chainId" := VBigInt chainId]> fees)) /\
        (forall name : string,
            EVM.transaction res !! name =
            let attached :=
              if decide (name = "type") then Some (VNumber 2)
              else if decide (name = "nonce") then Some (VNumber nonce)
              else if decide (name = "chainId") then Some (VBigInt chainId)
              else fees !! name in
            if decide (name = "from") then attached
            else match request !! name with
                 | Some v => Some v
                 | None => attached
                 end) /\
        attachGasAndNonce request = Ok (EVM.transaction res) /\
        unsignedSerialized (EVM.transaction res) = Ok txSerialized /\
        getBytes (HexString txSerialized) = Ok unsignedBytes /\
        EVM.mpcPayloads res =
          [ {| EVM.index := 0;
               EVM.payload := keccak256_bytes unsignedBytes |} ]) /\
  (forall transaction txSerialized,
      attachGasAndNonce request = Ok transaction ->
      unsignedSerialized transaction = Ok txSerialized ->
      isBytesLikeString txSerialized = true ->
      getMPCPayloadAndTransaction request =
        Ok {| EVM.transaction := transaction;
              EVM.mpcPayloads :=
                [ {| EVM.index := 0;
                     EVM.payload :=
                       keccak256_bytes (fromHex (drop 2 txSerialized)) |} ] |}) /\
  (forall fees nonce txSerialized,
      fetchEVMFeeProperties connectionUrl request = Ok fees ->
      getTransactionCount (prop "from" request) = Ok nonce ->
      unsignedSerialized
        (delete "from" request ∪
         <["type" := VNumber 2]>
           (<["nonce" := VNumber nonce]>
              (<["chainId" := VBigInt chainId]> fees))) = Ok txSerialized ->
      isBytesLikeString txSerialized = true ->
      getMPCPayloadAndTransaction request =
        Ok {| EVM.transaction :=
                delete "from" request ∪
                <["type" := VNumber 2]>
                  (<["nonce" := VNumber nonce]>
                     (<["chainId" := VBigInt chainId]> fees));
              EVM.mpcPayloads :=
                [ {| EVM.index := 0;
                     EVM.payload :=
                       keccak256_bytes (fromHex (drop 2 txSerialized)) |} ] |}).
Proof.
  assert (Hreturns : forall transaction txSerialized,
             attachGasAndNonce request = Ok transaction ->
             unsignedSerialized transaction = Ok txSerialized ->
             isBytesLikeString txSerialized = true ->
             getMPCPayloadAndTransaction request =
               Ok {| EVM.transaction := transaction;
                     EVM.mpcPayloads :=
                       [ {| EVM.index := 0;
                            EVM.payload :=
                              keccak256_bytes
                                (fromHex (drop 2 txSerialized)) |} ] |}).
  { intros transaction txSerialized Hattach Hser Hhex.
    unfold EVM.getMPCPayloadAndTransaction.
    rewrite Hattach. cbn [bind]. rewrite Hser. cbn [bind].
    unfold EVM.keccak256, getBytes at 1. rewrite Hhex. cbn [bind].
    by rewrite getBytes_hexlify. }
  split; [|split; [exact Hreturns|]].
  - intros res H. unfold EVM.getMPCPayloadAndTransaction in H.
    bind_inv H. bind_inv H. bind_inv H. bind_inv H.
    injection H as <-. cbn [EVM.transaction EVM.mpcPayloads].
    apply keccak256_Ok_inv in Ha1 as (bytes & Hbytes & ->).
    rewrite getBytes_hexlify in Ha2. injection Ha2 as <-.
    destruct (attachGasAndNonce_Ok_inv _ _ Ha)
      as (fees & nonce & Hfees & Hnonce & Heq).
    destruct (attachGasAndNonce_lookup _ _ Ha)
      as (fees' & nonce' & Hfees' & Hnonce' & Hlookup).
    rewrite Hfees in Hfees'. injection Hfees' as <-.
    rewrite Hnonce in Hnonce'. injection Hnonce' as <-.
    exists fees, nonce, a0, bytes. by repeat (split; [done|]).
  - intros fees nonce txSerialized Hfees Hnonce Hser Hhex.
    apply Hreturns; [|done|done].
    unfold EVM.attachGasAndNonce. by rewrite Hfees, Hnonce.
Qed.

(** C4. For an uncompressed key (it starts with [04]) returned by the
    contract, the address is [0x] followed by the 40 digits of the last
    20 bytes of the Keccak-256 hash of the key without its [04], and the
    public key returned is the key itself. *)
Theorem deriveAddressAndPublicKey_address
    (signerId : jsstring) (path : KeyDerivationPath) (key : jsstring) :
  (forall buf, length (keccak256_bytes buf) = 32) ->
  getDerivedPublicKey path signerId = Ok (Some key) ->
  startsWith (lit "04") key = true ->
  let hash := keccak256_bytes (fromHex (drop 2 key)) in
  deriveAddressAndPublicKey signerId path =
    Ok {| EVM.address := lit "0x" ++ toHex (drop 12 hash);
          EVM.publicKey := key |} /\
  length (drop 12 hash) = 20 /\
  length (toHex (drop 12 hash)) = 40.
Proof.
  intros Hlen Hget Hprefix hash.
  assert (Hhash : length (drop 12 hash) = 20)
    by (rewrite length_drop; unfold hash; rewrite Hlen; lia).
  split; [|split; [done|rewrite length_toHex; lia]].
  unfold EVM.deriveAddressAndPublicKey. rewrite Hget. cbn [bind].
  destruct key as [|c key]; [done|].
  rewrite Hprefix.
  change 2%Z with (Z.of_nat 2). rewrite substring_drop.
  rewrite keccak256_bytesOf. cbn [bind]. fold hash.
  rewrite length_hexlify. unfold hash at 1. rewrite Hlen.
  change (Z.of_nat (2 + 2 * 32) - 40)%Z with (Z.of_nat 26).
  rewrite substring_drop.
  change (drop 26 (hexlify hash)) with (drop (2 * 12) (toHex hash)).
  by rewrite <- toHex_drop.
Qed.

(** Only a missing or empty key is refused. *)
Lemma deriveAddressAndPublicKey_missing_key
    (signerId : jsstring) (path : KeyDerivationPath) :
  getDerivedPublicKey path signerId = Ok None \/
  getDerivedPublicKey path signerId = Ok (Some []) ->
  deriveAddressAndPublicKey signerId path =
    Throw (Error "Failed to get derived public key").
Proof.
  unfold EVM.deriveAddressAndPublicKey. by intros [-> | ->].
Qed.

(** C9. [addSignature] reads the signature list at index 0 only: two
    non-empty lists with the same first signature give the same result,
    which is the result for that signature alone. *)
Theorem addSignature_first_signature_only
    (transaction : object) (sigs1 sigs2 : list RSV.Signature) :
  sigs1 <> [] -> sigs2 <> [] -> sigs1 !! 0 = sigs2 !! 0 ->
  addSignature transaction sigs1 = addSignature transaction sigs2 /\
  exists first,
    sigs1 !! 0 = Some first /\
    addSignature transaction sigs1 = addSignature transaction [first].
Proof.
  intros Hne1 Hne2 Heq. unfold EVM.addSignature. rewrite <- Heq.
  split; [done|].
  destruct sigs1 as [|first rest]; [done|]. by exists first.
Qed.

(** C6, as the code has it. The signatures passed to [addSignature] carry
    no index and none is checked: a signature put at any index from 1 on,
    in place of another or at the end, changes nothing and raises nothing;
    and when ethers accepts the signature at index 0, that signature is
    attached whatever follows it. *)
Theorem addSignature_checks_no_index
    (transaction : object) (sigs : list RSV.Signature)
    (k : nat) (other : RSV.Signature) :
  1 <= k ->
  addSignature transaction (<[k := other]> sigs) =
    addSignature transaction sigs /\
  (sigs <> [] ->
   addSignature transaction (sigs ++ [other]) =
     addSignature transaction sigs) /\
  (forall first rest signature,
      sigs = first :: rest ->
      Signature_from (lit "0x" ++ RSV.r first) (lit "0x" ++ RSV.s first)
        (RSV.v first) = Ok signature ->
      addSignature transaction sigs =
        serialized (<["signature" := VSignature signature]> transaction)).
Proof.
  intros Hk. unfold EVM.addSignature. split; [|split].
  - by rewrite list_lookup_insert_ne by lia.
  - intros Hne. destruct sigs; done.
  - intros first rest signature -> Hsig.
    change ((first :: rest) !! 0) with (Some first).
    unfold EVM.parseSignature. by rewrite Hsig.
Qed.

End EVMTheory.

(** ** The EVM adapter on sample collaborators *)

Lemma length_sampleDigest (buf : list byte) : length (sampleDigest buf) = 32.
Proof.
  unfold sampleDigest. rewrite length_take, length_app, length_replicate. lia.
Qed.

Lemma getMPCPayloadAndTransaction_single_payload_witness :
  exists res,
    EVM.getMPCPayloadAndTransaction sampleDigest sampleUrl 1 sampleNonce
      sampleFees sampleUnsigned validRequest = Ok res /\
    EVM.mpcPayloads res =
      [ {| EVM.index := 0; EVM.payload := sampleDigest [x02; xc0] |} ] /\
    EVM.transaction res !! "from" = None /\
    EVM.transaction res !! "type" = Some (VNumber 2) /\
    EVM.transaction res !! "nonce" = Some (VNumber 7) /\
    EVM.transaction res !! "chainId" = Some (VBigInt 1) /\
    EVM.transaction res !! "maxFeePerGas" = Some (VBigInt 30) /\
    EVM.transaction res !! "to" =
      Some (VString (lit "0x" ++ replicate 40 "b"%char)).
Proof.
  destruct (getMPCPayloadAndTransaction_single_payload sampleDigest sampleUrl
              1 sampleNonce sampleFees sampleUnsigned validRequest)
    as (Hpayload & _ & Hreturns).
  pose proof (Hreturns _ 7%Z (lit "0x02c0") eq_refl eq_refl eq_refl eq_refl)
    as Hok.
  eexists. split; [exact Hok|].
  destruct (Hpayload _ Hok)
    as (fees & nonce & ser & bytes & Hfees & Hnonce & _ & Hlookup & _ &
        Hser & Hbytes & Hpay).
  injection Hfees as <-. injection Hnonce as <-.
  injection Hser as <-. cbn in Hbytes. injection Hbytes as <-.
  split; [exact Hpay|].
  rewrite !Hlookup. by vm_compute.
Defined.

Lemma deriveAddressAndPublicKey_address_witness :
  EVM.deriveAddressAndPublicKey sampleDigest sampleContract
    (lit "alice.near") (lit "ethereum-1") =
  Ok {| EVM.address := lit "0x" ++ toHex (replicate 20 x01);
        EVM.publicKey := lit "04" ++ toHex (replicate 64 x01) |}.
Proof.
  apply (deriveAddressAndPublicKey_address sampleDigest sampleContract
           (lit "alice.near") (lit "ethereum-1")
           (lit "04" ++ toHex (replicate 64 x01))
           length_sampleDigest eq_refl eq_refl).
Defined.

(** A derived key of one byte is hashed like any other. *)
Example deriveAddressAndPublicKey_short_key :
  EVM.deriveAddressAndPublicKey sampleDigest
    (fun _ _ => Ok (Some (lit "0401"))) (lit "alice.near") (lit "ethereum-1") =
  Ok {| EVM.address := lit "0x" ++ toHex (replicate 20 x00);
        EVM.publicKey := lit "0401" |}.
Proof. reflexivity. Qed.

Lemma addSignature_first_signature_only_witness :
  EVM.addSignature sampleSerialized sampleSignature_from sampleAttached
    [sigA; sigB] =
  EVM.addSignature sampleSerialized sampleSignature_from sampleAttached
    [sigA; sigC; sigB].
Proof.
  apply (addSignature_first_signature_only sampleSerialized
           sampleSignature_from sampleAttached [sigA; sigB] [sigA; sigC; sigB]);
    [discriminate|discriminate|reflexivity].
Defined.

Lemma addSignature_checks_no_index_witness :
  EVM.addSignature checkedSerialized checkedSignature_from validAttached
    [sigA; sigC] =
  EVM.addSignature checkedSerialized checkedSignature_from validAttached
    [sigA; sigB].
Proof.
  destruct (addSignature_checks_no_index checkedSerialized
              checkedSignature_from validAttached [sigA; sigB] 1 sigC)
    as [Hreplaced _]; [lia|].
  exact Hreplaced.
Defined.

(** C6 as stated fails, in both adapters.

    Bitcoin: the signing loop runs twice over the same two inputs; the
    signer hands over the same two signatures, in one run in one order and
    in the other run in the opposite order. Both runs attach to input 0
    what was answered first and to input 1 what was answered second, so
    whichever signature is the one for input 0, one of the runs has put it
    on input 1; neither run raises anything.

    EVM: the transaction has one payload, index 0. Whichever of the two
    signatures is the one for that payload, one of the two calls passes it
    at index 1 and the other signature at index 0; both calls return, each
    with what it returns for the signature at index 0 alone, and the two
    results differ. *)
Lemma signatures_applied_without_index_check :
  (snd (signBoth mpcA mpcB) =
     Ok [ (inputA, Some (fromHex (RSV.r sigA ++ RSV.s sigA)));
          (inputB, Some (fromHex (RSV.r sigB ++ RSV.s sigB))) ] /\
   snd (signBoth mpcB mpcA) =
     Ok [ (inputA, Some (fromHex (RSV.r sigB ++ RSV.s sigB)));
          (inputB, Some (fromHex (RSV.r sigA ++ RSV.s sigA))) ] /\
   Bitcoin.requested (Bitcoin.trace (fst (signBoth mpcA mpcB))) = [0; 1] /\
   Bitcoin.requested (Bitcoin.trace (fst (signBoth mpcB mpcA))) = [0; 1] /\
   fromHex (RSV.r sigA ++ RSV.s sigA) <> fromHex (RSV.r sigB ++ RSV.s sigB)) /\
  (isOk (EVM.addSignature checkedSerialized checkedSignature_from
           validAttached [sigA; sigB]) = true /\
   isOk (EVM.addSignature checkedSerialized checkedSignature_from
           validAttached [sigB; sigA]) = true /\
   EVM.addSignature checkedSerialized checkedSignature_from validAttached
     [sigA; sigB] =
   EVM.addSignature checkedSerialized checkedSignature_from validAttached
     [sigA] /\
   EVM.addSignature checkedSerialized checkedSignature_from validAttached
     [sigB; sigA] =
   EVM.addSignature checkedSerialized checkedSignature_from validAttached
     [sigB] /\
   EVM.addSignature checkedSerialized checkedSignature_from validAttached
     [sigA; sigB] <>
   EVM.addSignature checkedSerialized checkedSignature_from validAttached
     [sigB; sigA]).
Proof.
  split.
  - split; [by vm_compute|]. split; [by vm_compute|].
    split; [by vm_compute|]. split; by vm_compute.
  - split; [by vm_compute|]. split; [by vm_compute|].
    split; [by vm_compute|]. split; by vm_compute.
Qed.

(** ** The order of the signing requests *)

(** The request for input [m] sits at position [2 * (m - i)]. *)
Lemma sequential_requested i evs :
  sequential i evs ->
  forall p m hash,
    evs !! p = Some (Bitcoin.Requested m hash) ->
    i <= m /\ p = 2 * (m - i).
Proof.
  induction 1 as [i|i hash0 outcome evs Hseq IH Hok]; intros p m hash Hp.
  - by rewrite lookup_nil in Hp.
  - destruct p as [|[|p]]; simpl in Hp.
    + injection Hp as <- <-. lia.
    + done.
    + apply IH in Hp as [Hle ->]. lia.
Qed.

(** Its completion sits right after it, and brought a signature when
    anything follows. *)
Lemma sequential_completed i evs :
  sequential i evs ->
  forall m,
    i <= m -> 2 * (m - i) + 1 < length evs ->
    exists outcome,
      evs !! (2 * (m - i) + 1) = Some (Bitcoin.Completed m outcome) /\
      (2 * (m - i) + 2 < length evs -> exists sig, outcome = Ok sig).
Proof.
  induction 1 as [i|i hash0 outcome evs Hseq IH Hok]; intros m Hle Hlen.
  - simpl in Hlen. lia.
  - destruct (decide (m = i)) as [->|Hne].
    + replace (2 * (i - i) + 1) with 1 by lia.
      exists outcome. split; [done|].
      intros Hmore. apply Hok. destruct evs; [simpl in Hmore; lia|done].
    + simpl in Hlen.
      destruct (IH m) as (o & Ho & Hsig); [lia|lia|].
      exists o.
      replace (2 * (m - i) + 1) with (S (S (2 * (m - S i) + 1))) by lia.
      split; [exact Ho|].
      intros Hmore. apply Hsig. simpl in Hmore. lia.
Qed.

(** In such a history the request for input [j + 1] comes right after the
    completion, with a signature, of the request for input [j]. *)
Lemma sequential_order evs p j hash :
  sequential 0 evs ->
  evs !! p = Some (Bitcoin.Requested (S j) hash) ->
  exists q sig,
    p = S q /\ evs !! q = Some (Bitcoin.Completed j (Ok sig)).
Proof.
  intros Hseq Hp.
  pose proof (lookup_lt_Some _ _ _ Hp) as Hlt.
  destruct (sequential_requested _ _ Hseq _ _ _ Hp) as [_ ->].
  destruct (sequential_completed _ _ Hseq j) as (o & Ho & Hsig); [lia|lia|].
  destruct Hsig as [sig ->]; [lia|].
  exists (2 * (j - 0) + 1), sig. split; [lia|exact Ho].
Qed.

Lemma requested_step i hash outcome evs :
  Bitcoin.requested
    (Bitcoin.Requested i hash :: Bitcoin.Completed i outcome :: evs) =
  i :: Bitcoin.requested evs.
Proof. reflexivity. Qed.

(** ** The Bitcoin adapter *)

Section BitcoinTheory.

Context {SignerState KeyDerivationPath Network NetworkId Contracts Psbt : Type}.
Variable network : Network.
Variable providerUrl : jsstring.
Variable contract : Contracts.
Variable signer :
  SignerState -> list byte -> SignerState * result MPC.Signature.
Variable fetchDerivedBTCAddressAndPublicKey :
  jsstring -> KeyDerivationPath -> Network -> NetworkId -> Contracts ->
  result (jsstring * list byte).
Variable fetchBTCFeeProperties :
  jsstring -> jsstring -> jsstring -> jsstring ->
  result (list Bitcoin.UTXO * list Bitcoin.BTCOutput).
Variable fetchTransactionOuts : jsstring -> result (list Bitcoin.TxOut).
Variable completionOrder : list Bitcoin.UTXO -> list Bitcoin.UTXO.
Variable post : jsstring -> jsstring -> result (Z * option jsstring).
Variable newPsbt : Network -> Psbt.
Variable addInput : Psbt -> Bitcoin.InputOptions -> result Psbt.
Variable addOutput : Psbt -> Bitcoin.OutputOptions -> result Psbt.
Variable sighashOf : Psbt -> nat -> list byte -> result (list byte).
Variable addPartialSig : Psbt -> nat -> list byte -> list byte -> result Psbt.
Variable finalizeAllInputs : Psbt -> result Psbt.
Variable extractTransactionHex : Psbt -> result jsstring.

Abbreviation World := (Bitcoin.World SignerState).
Abbreviation sign := (Bitcoin.sign signer).
Abbreviation signInputAsync :=
  (Bitcoin.signInputAsync signer sighashOf addPartialSig).
Abbreviation signInputs :=
  (Bitcoin.signInputs signer sighashOf addPartialSig).
Abbreviation resolveInputsAndOutputs :=
  (Bitcoin.resolveInputsAndOutputs providerUrl fetchBTCFeeProperties).
Abbreviation handleTransaction :=
  (Bitcoin.handleTransaction network providerUrl contract signer
     fetchDerivedBTCAddressAndPublicKey fetchBTCFeeProperties
     fetchTransactionOuts completionOrder post newPsbt addInput addOutput
     sighashOf addPartialSig finalizeAllInputs extractTransactionHex).

Lemma await_lift {A B : Type}
    (r : result A) (k : A -> Bitcoin.Async SignerState B) (w : World) :
  Bitcoin.await (Bitcoin.lift r) k w =
  match r with
  | Ok a => k a w
  | Throw e => (w, Throw e)
  end.
Proof. by destruct r. Qed.

Lemma await_run {A B : Type}
    (m : Bitcoin.Async SignerState A) (k : A -> Bitcoin.Async SignerState B)
    (w : World) :
  Bitcoin.await m k w =
  match m w with
  | (w', Ok a) => k a w'
  | (w', Throw e) => (w', Throw e)
  end.
Proof. reflexivity. Qed.

(** One call of the signer: the request, then its completion, and only
    then the encoding of the signature. *)
Lemma sign_trace (index : nat) (hash : list byte) (w : World) :
  exists outcome,
    Bitcoin.trace (sign index hash w).1 =
      Bitcoin.trace w ++
      [Bitcoin.Requested index hash; Bitcoin.Completed index outcome] /\
    (sign index hash w).2 =
      (let* mpcSignature := outcome in
       parseRSVSignature (toRSV mpcSignature)).
Proof.
  unfold Bitcoin.sign, Bitcoin.record. cbn [Bitcoin.signerState Bitcoin.trace].
  destruct (signer (Bitcoin.signerState w) hash) as [st outcome].
  exists outcome. cbn [fst snd Bitcoin.trace].
  by rewrite <- app_assoc.
Qed.

(** Signing one input adds nothing to the history and fails, or adds one
    request and its completion. *)
Lemma signInputAsync_trace
    (index : nat) (publicKey : list byte) (psbt : Psbt) (w : World) :
  (Bitcoin.trace (signInputAsync index publicKey psbt w).1 = Bitcoin.trace w /\
   isOk (signInputAsync index publicKey psbt w).2 = false) \/
  (exists hash outcome,
      Bitcoin.trace (signInputAsync index publicKey psbt w).1 =
        Bitcoin.trace w ++
        [Bitcoin.Requested index hash; Bitcoin.Completed index outcome] /\
      (isOk (signInputAsync index publicKey psbt w).2 = true ->
       exists sig, outcome = Ok sig)).
Proof.
  unfold Bitcoin.signInputAsync. rewrite await_lift.
  destruct (sighashOf psbt index publicKey) as [hash|e]; [|by left].
  right. destruct (sign_trace index hash w) as (outcome & Htrace & Hres).
  exists hash, outcome. unfold Bitcoin.await.
  destruct (sign index hash w) as [w1 r1]. simpl in Htrace, Hres.
  destruct r1 as [signature|e]; cbn [fst snd Bitcoin.lift].
  - split; [exact Htrace|]. intros _.
    destruct outcome as [sig|e]; [by exists sig|done].
  - split; [exact Htrace|done].
Qed.

(** Whatever signature the signer returns for the hash of input [index],
    it is encoded and attached to that input; nothing relates it to the
    index. *)
Lemma signInputAsync_attaches
    (index : nat) (publicKey : list byte) (psbt : Psbt) (w : World)
    (hash : list byte) (st : SignerState) (sig : MPC.Signature)
    (signature : list byte) :
  sighashOf psbt index publicKey = Ok hash ->
  signer (Bitcoin.signerState w) hash = (st, Ok sig) ->
  parseRSVSignature (toRSV sig) = Ok signature ->
  (signInputAsync index publicKey psbt w).2 =
    addPartialSig psbt index publicKey signature.
Proof.
  intros Hhash Hsigner Hparse.
  unfold Bitcoin.signInputAsync. rewrite await_lift, Hhash, await_run.
  unfold Bitcoin.sign, Bitcoin.record. cbn [Bitcoin.signerState].
  rewrite Hsigner. cbn [bind]. by rewrite Hparse.
Qed.

(** The loop signs the inputs one at a time, in increasing order from
    [index] on, and, when it completes, all [remaining] of them. *)
Lemma signInputs_trace
    (remaining index : nat) (publicKey : list byte) (psbt : Psbt) (w : World) :
  exists evs k,
    Bitcoin.trace (signInputs remaining index publicKey psbt w).1 =
      Bitcoin.trace w ++ evs /\
    sequential index evs /\
    Bitcoin.requested evs = seq index k /\
    k <= remaining /\
    (isOk (signInputs remaining index publicKey psbt w).2 = true ->
     k = remaining).
Proof.
  revert index psbt w.
  induction remaining as [|remaining IH]; intros index psbt w.
  - exists [], 0. cbn. rewrite app_nil_r.
    repeat split; [constructor|lia].
  - cbn [Bitcoin.signInputs]. unfold Bitcoin.await.
    destruct (signInputAsync_trace index publicKey psbt w)
      as [[Htrace Hfail]|(hash & outcome & Htrace & Hsig)].
    + exists [], 0.
      destruct (signInputAsync index publicKey psbt w) as [w1 [psbt1|e]];
        [done|].
      cbn [fst snd] in *. rewrite app_nil_r.
      repeat split; [done|constructor|lia|done].
    + destruct (signInputAsync index publicKey psbt w) as [w1 [psbt1|e]];
        cbn [fst snd] in *.
      * destruct (IH (S index) psbt1 w1) as (evs & k & Hevs & Hseq & Hreq & Hk & Hall).
        exists (Bitcoin.Requested index hash ::
                Bitcoin.Completed index outcome :: evs), (S k).
        rewrite Hevs, Htrace, <- app_assoc.
        repeat split; try done.
        -- constructor; [done|]. intros _. by apply Hsig.
        -- by rewrite requested_step, Hreq.
        -- lia.
        -- intros Hok. f_equal. by apply Hall.
      * exists [Bitcoin.Requested index hash;
                Bitcoin.Completed index outcome], 1.
        repeat split; try done.
        -- constructor; [constructor|done].
        -- lia.
Qed.

(** What follows the loop leaves the history as it is. *)
Lemma handleTransaction_tail_trace (psbt : Psbt) (w : World) :
  let tail :=
    Bitcoin.await (Bitcoin.lift (finalizeAllInputs psbt)) (fun psbt =>
    Bitcoin.await (Bitcoin.lift (extractTransactionHex psbt)) (fun txHex =>
    Bitcoin.await
      (Bitcoin.lift (Bitcoin.sendTransaction providerUrl post txHex))
      (fun txid =>
         match txid with
         | Some (c :: id) => Bitcoin.ret (c :: id)
         | _ => Bitcoin.reject (Error "Failed to broadcast transaction")
         end))) in
  (tail w).1 = w.
Proof.
  intros tail. unfold tail. rewrite await_lift.
  destruct (finalizeAllInputs psbt) as [psbt1|e]; [|done].
  rewrite await_lift.
  destruct (extractTransactionHex psbt1) as [txHex|e]; [|done].
  rewrite await_lift.
  destruct (Bitcoin.sendTransaction providerUrl post txHex)
    as [[[|c id]|]|e]; done.
Qed.

(** A run that stops before the loop has made no request. *)
Ltac stopped_early :=
  exists [], 0; rewrite app_nil_r;
  split; [done|]; split; [constructor|]; split; [done|];
  intros ? ? ? ? ? ?; split; [lia|done].

(** C1. In every run of [handleTransaction], the signing requests made to
    the MPC signer are for the inputs 0, 1, 2, ... in this order, and the
    request for input [i + 1] is made right after the request for input
    [i] has completed with a signature, never before. A run that returns
    has requested a signature for each of the [n] inputs. *)
Theorem handleTransaction_signs_sequentially
    (data : Bitcoin.BTCTransaction)
    (nearAuthentication : Bitcoin.NearAuthentication NetworkId)
    (path : KeyDerivationPath) (w : World) :
  exists evs k,
    Bitcoin.trace (handleTransaction data nearAuthentication path w).1 =
      Bitcoin.trace w ++ evs /\
    Bitcoin.requested evs = seq 0 k /\
    (forall p i hash,
        evs !! p = Some (Bitcoin.Requested (S i) hash) ->
        exists q sig,
          p = S q /\ evs !! q = Some (Bitcoin.Completed i (Ok sig))) /\
    (forall address publicKey ins outs,
        fetchDerivedBTCAddressAndPublicKey
          (Bitcoin.accountId nearAuthentication) path network
          (Bitcoin.networkId nearAuthentication) contract =
          Ok (address, publicKey) ->
        resolveInputsAndOutputs address data = Ok (ins, outs) ->
        k <= length ins /\
        (isOk (handleTransaction data nearAuthentication path w).2 = true ->
         k = length ins)).
Proof.
  cut (exists evs k,
          Bitcoin.trace (handleTransaction data nearAuthentication path w).1 =
            Bitcoin.trace w ++ evs /\
          sequential 0 evs /\
          Bitcoin.requested evs = seq 0 k /\
          (forall address publicKey ins outs,
              fetchDerivedBTCAddressAndPublicKey
                (Bitcoin.accountId nearAuthentication) path network
                (Bitcoin.networkId nearAuthentication) contract =
                Ok (address, publicKey) ->
              resolveInputsAndOutputs address data = Ok (ins, outs) ->
              k <= length ins /\
              (isOk (handleTransaction data nearAuthentication path w).2 = true ->
               k = length ins))).
  { intros (evs & k & Htrace & Hseq & Hreq & Hn).
    exists evs, k. split; [done|]. split; [done|]. split; [|exact Hn].
    intros p i hash Hp. by apply (sequential_order evs p i hash). }
  unfold Bitcoin.handleTransaction. rewrite await_lift.
  destruct (fetchDerivedBTCAddressAndPublicKey _ _ _ _ _)
    as [[address publicKey]|e]; [|by stopped_early].
  rewrite await_lift.
  destruct (resolveInputsAndOutputs address data) as [[ins outs]|e] eqn:Hres;
    [|by stopped_early].
  rewrite await_lift.
  destruct (Bitcoin.forEach _ (completionOrder ins) _) as [psbt1|e];
    [|by stopped_early].
  rewrite await_lift.
  destruct (Bitcoin.forEach _ outs psbt1) as [psbt2|e]; [|by stopped_early].
  rewrite await_run.
  destruct (signInputs_trace (length ins) 0 publicKey psbt2 w)
    as (evs & k & Htrace & Hseq & Hreq & Hk & Hall).
  destruct (signInputs (length ins) 0 publicKey psbt2 w) as [w1 [psbt3|e]];
    cbn [fst snd] in *.
  - exists evs, k. rewrite handleTransaction_tail_trace.
    split; [done|]. split; [done|]. split; [done|].
    intros ? ? ? ? [= <- <-] Hins. rewrite Hres in Hins.
    injection Hins as <- <-. split; [lia|]. intros _. by apply Hall.
  - exists evs, k.
    split; [done|]. split; [done|]. split; [done|].
    intros ? ? ? ? [= <- <-] Hins. rewrite Hres in Hins.
    injection Hins as <- <-. split; [lia|done].
Qed.

End BitcoinTheory.

(** ** The Bitcoin adapter on sample collaborators *)

Example sampleRun_trace :
  Bitcoin.trace sampleRun.1 =
    [ Bitcoin.Requested 0 [xaa; x01]; Bitcoin.Completed 0 (Ok sampleMPC);
      Bitcoin.Requested 1 [xbb; x02]; Bitcoin.Completed 1 (Ok sampleMPC) ].
Proof. vm_compute. reflexivity. Qed.

Example sampleRun_result : sampleRun.2 = Ok (lit "txid-of-broadcast").
Proof. vm_compute. reflexivity. Qed.

Lemma handleTransaction_signs_sequentially_witness :
  Bitcoin.trace sampleRun.1 !! 2 = Some (Bitcoin.Requested 1 [xbb; x02]) /\
  exists sig,
    Bitcoin.trace sampleRun.1 !! 1 = Some (Bitcoin.Completed 0 (Ok sig)).
Proof.
  split; [vm_compute; reflexivity|].
  destruct (handleTransaction_signs_sequentially
              tt (lit "https://btc.example") tt sampleSigner sampleDerive
              sampleFeeProperties sampleOuts (fun ins => ins) samplePost
              (fun _ => ([] : SamplePsbt)) sampleAddInput sampleAddOutput
              sampleSighash sampleAddPartialSig (fun psbt => Ok psbt)
              (fun _ => Ok (lit "0200"))
              twoInputs sampleAuthentication (lit "bitcoin-1") freshWorld)
    as (evs & k & Htrace & _ & Horder & _).
  change (Bitcoin.trace sampleRun.1 = evs) in Htrace.
  destruct (Horder 2 0 [xbb; x02]) as (q & sig & Hq & Hcompleted).
  - rewrite <- Htrace. vm_compute. reflexivity.
  - injection Hq as <-. exists sig. by rewrite Htrace.
Defined.

(** * Further properties *)

(** ** Encoding the signer's answer *)

Lemma padStart_zeros (k : nat) (s : jsstring) :
  k + length s <= 64 ->
  padStart 64 "0" (replicate k "0"%char ++ s) = padStart 64 "0" s.
Proof.
  intros Hlen. unfold padStart. rewrite length_app, length_replicate.
  destruct (decide (64 <= k + length s)) as [Hfull|Hshort].
  - destruct (decide (64 <= length s)) as [Hs|Hs].
    + assert (k = 0) as -> by lia. done.
    + by replace k with (64 - length s) by lia.
  - rewrite decide_False by lia.
    rewrite app_assoc, <- replicate_add. do 2 f_equal. lia.
Qed.

(** A string of hexadecimal digits decodes to half as many bytes. *)
Lemma length_fromHex_hex (s : jsstring) :
  isHex s = true -> length (fromHex s) = length s / 2.
Proof.
  intros Hhex.
  assert (H : forall n (t : jsstring),
             length t <= n -> isHex t = true ->
             length (fromHex t) = length t / 2).
  { clear. induction n as [|n IH]; intros t Hn Ht.
    - destruct t; [reflexivity|simpl in Hn; lia].
    - destruct t as [|x [|y t]]; [reflexivity|reflexivity|].
      cbn [isHex forallb] in Ht.
      apply andb_prop in Ht as [Hx Ht]. apply andb_prop in Ht as [Hy Ht].
      unfold isHexDigit in Hx, Hy. cbn [fromHex].
      destruct (unhex x); [|done]. destruct (unhex y); [|done].
      cbn [length] in *. rewrite (IH t) by (done || lia).
      replace (S (S (length t))) with (length t + 1 * 2) by lia.
      rewrite Nat.div_add by done. lia. }
  by apply (H (length s)).
Qed.

(** X1. What [keyPair.sign] makes of a well-formed answer of the signer:
    [parseRSVSignature (toRSV _)] always succeeds, and the 64 bytes are
    the x-coordinate of [big_r] followed by the scalar [s]; the recovery
    id plays no part. *)
Theorem parseRSVSignature_toRSV (signature : MPC.Signature) :
  wellFormedMPC signature ->
  parseRSVSignature (toRSV signature) =
    Ok (fromHex (drop 2 (MPC.affine_point (MPC.big_r signature))) ++
        fromHex (MPC.scalar (MPC.s signature))) /\
  length (fromHex (drop 2 (MPC.affine_point (MPC.big_r signature)))) = 32 /\
  length (fromHex (MPC.scalar (MPC.s signature))) = 32.
Proof.
  intros (Hrlen & Hrhex & Hslen & Hshex).
  pose proof (parseRSVSignature_scalars (toRSV signature)) as H.
  unfold toRSV in *. cbn [RSV.r RSV.s] in H.
  change 2%Z with (Z.of_nat 2) in *. rewrite substring_drop in *.
  rewrite !padStart_id in H by (rewrite ?length_drop; lia).
  apply H; [by apply isHex_drop|rewrite length_drop; lia|done|lia].
Qed.

Lemma parseRSVSignature_toRSV_witness :
  parseRSVSignature (toRSV sampleMPC) =
    Ok ((replicate 31 x00 ++ [x7b]) ++ (replicate 31 x00 ++ [xea])).
Proof.
  apply (parseRSVSignature_toRSV sampleMPC). by repeat split.
Defined.

(** X2. Leading zeros do not matter: [r] and [s] written with or without
    leading zero digits, up to 64 digits in all, are encoded alike, and so
    are signatures that differ in [v] only. *)
Theorem parseRSVSignature_leading_zeros
    (r s : jsstring) (v v' : Z) (k j : nat) :
  k + length r <= 64 -> j + length s <= 64 ->
  parseRSVSignature
    {| RSV.r := replicate k "0"%char ++ r;
       RSV.s := replicate j "0"%char ++ s; RSV.v := v |} =
  parseRSVSignature {| RSV.r := r; RSV.s := s; RSV.v := v' |}.
Proof.
  intros Hr Hs. unfold parseRSVSignature. cbn [RSV.r RSV.s].
  by rewrite !padStart_zeros.
Qed.

Lemma parseRSVSignature_leading_zeros_witness :
  parseRSVSignature
    {| RSV.r := lit "007b"; RSV.s := lit "0001ea"; RSV.v := 1 |} =
  parseRSVSignature sampleRSV.
Proof.
  apply (parseRSVSignature_leading_zeros (lit "7b") (lit "01ea") 1 0 2 2);
    simpl; lia.
Defined.

(** X3. For hexadecimal [r] and [s], [parseRSVSignature] succeeds exactly
    when the two padded strings have 128 or 129 digits together. Scalars
    of up to 64 digits pass; so does one of 65 digits beside one of up to
    64, whose last digit is then cut off by the decoding. *)
Theorem parseRSVSignature_succeeds_iff (signature : RSV.Signature) :
  isHex (RSV.r signature) = true -> isHex (RSV.s signature) = true ->
  isOk (parseRSVSignature signature) = true <->
  Nat.max 64 (length (RSV.r signature)) +
  Nat.max 64 (length (RSV.s signature)) <= 129.
Proof.
  intros Hr Hs.
  set (padded := padStart 64 "0" (RSV.r signature) ++
                 padStart 64 "0" (RSV.s signature)).
  assert (Hlen : length (fromHex padded) =
                 (Nat.max 64 (length (RSV.r signature)) +
                  Nat.max 64 (length (RSV.s signature))) / 2).
  { rewrite length_fromHex_hex.
    - unfold padded. by rewrite length_app, !length_padStart.
    - unfold padded. by rewrite isHex_app, !isHex_padStart, Hr, Hs. }
  set (n := Nat.max 64 (length (RSV.r signature)) +
            Nat.max 64 (length (RSV.s signature))) in *.
  assert (Hn : 128 <= n) by (unfold n; lia).
  assert (Hdiv : n / 2 = 64 <-> n <= 129).
  { pose proof (Nat.div_mod_eq n 2) as Hn2.
    pose proof (Nat.mod_upper_bound n 2). lia. }
  destruct (parseRSVSignature_cases signature) as [[H64 ->]|[Hne ->]];
    fold padded in H64 || fold padded in Hne; cbn [isOk].
  - split; [intros _|done]. apply Hdiv. by rewrite <- Hlen.
  - split; [done|]. intros Hle. exfalso. apply Hne.
    rewrite Hlen. by apply Hdiv.
Qed.

Lemma parseRSVSignature_succeeds_iff_witness :
  isOk (parseRSVSignature
          {| RSV.r := replicate 65 "f"%char; RSV.s := lit "01";
             RSV.v := 0 |}) = true.
Proof.
  apply (parseRSVSignature_succeeds_iff
           {| RSV.r := replicate 65 "f"%char; RSV.s := lit "01";
              RSV.v := 0 |}); [reflexivity|reflexivity|simpl; lia].
Defined.

(** ** The parts of a key in NEAR format *)

Lemma split_no_separator (sep : ascii) (s : jsstring) :
  sep ∉ s -> split sep s = [s].
Proof.
  induction s as [|c s IH]; intros Hsep; [done|].
  apply not_elem_of_cons in Hsep as [Hc Hs].
  cbn [split]. rewrite (proj2 (Ascii.eqb_neq c sep)) by congruence.
  by rewrite IH.
Qed.

Lemma split_first_separator (sep : ascii) (p s : jsstring) :
  sep ∉ p -> split sep (p ++ sep :: s) = p :: split sep s.
Proof.
  induction p as [|c p IH]; intros Hsep.
  - cbn [app split]. by rewrite Ascii.eqb_refl.
  - apply not_elem_of_cons in Hsep as [Hc Hp].
    cbn [app split]. rewrite (proj2 (Ascii.eqb_neq c sep)) by congruence.
    by rewrite IH.
Qed.

Section NajKeysMore.

Variable base_decode : option jsstring -> result (list byte).

(** X4. [najToPubKey] never looks at the curve name: two keys that differ
    only in what stands before the first colon give the same result. *)
Theorem najToPubKey_ignores_curve_name
    (curve1 curve2 body : jsstring) (compress : bool) :
  ":"%char ∉ curve1 -> ":"%char ∉ curve2 ->
  najToPubKey base_decode (curve1 ++ ":"%char :: body) compress =
  najToPubKey base_decode (curve2 ++ ":"%char :: body) compress.
Proof.
  intros H1 H2. unfold najToPubKey.
  by rewrite !split_first_separator.
Qed.

(** X5. A key without a colon has no second part: [base_decode] is called
    on [undefined], and whatever it throws then is what [najToPubKey]
    throws, with or without compression. *)
Theorem najToPubKey_no_separator
    (najPubKey : jsstring) (compress : bool) (e : error) :
  ":"%char ∉ najPubKey ->
  base_decode None = Throw e ->
  najToPubKey base_decode najPubKey compress = Throw e.
Proof.
  intros Hsep Hdec. unfold najToPubKey.
  rewrite split_no_separator by done.
  change ([najPubKey] !! 1) with (@None jsstring). by rewrite Hdec.
Qed.


End NajKeysMore.

Lemma najToPubKey_ignores_curve_name_witness :
  najToPubKey bs58_decode (lit "ed25519:2") false =
  najToPubKey bs58_decode shortKey false.
Proof.
  apply (najToPubKey_ignores_curve_name bs58_decode
           (lit "ed25519") (lit "secp256k1") (lit "2") false);
    by apply (bool_decide_unpack _).
Defined.

Lemma najToPubKey_no_separator_witness :
  najToPubKey bs58_decode (lit "secp256k1") true =
    Throw (TypeError "Expected String").
Proof.
  apply (najToPubKey_no_separator bs58_decode (lit "secp256k1") true);
    [by apply (bool_decide_unpack _)|reflexivity].
Defined.


(** ** More on the EVM adapter *)

Lemma lowerHex_toHex (buf : list byte) :
  forallb isLowerHexDigit (toHex buf) = true.
Proof.
  induction buf as [|b buf IH]; [done|].
  cbn [toHex]. rewrite forallb_app, IH, andb_true_r.
  by destruct b.
Qed.

Section EVMMore.

Context {KeyDerivationPath : Type}.
Variable keccak256_bytes : list byte -> list byte.
Variable connectionUrl : jsstring.
Variable chainId : Z.
Variable getTransactionCount : jsval -> result Z.
Variable fetchEVMFeeProperties : jsstring -> object -> result object.
Variable unsignedSerialized : object -> result jsstring.
Variable serialized : object -> result jsstring.
Variable Signature_from : jsstring -> jsstring -> Z -> result Ethers.Signature.

Hypothesis keccak256_bytes_length :
  forall buf, length (keccak256_bytes buf) = 32.

(** The last 40 characters of a hash are its last 20 bytes. *)
Lemma address_of_hash (buf : list byte) :
  let hash := hexlify (keccak256_bytes buf) in
  substring (Z.of_nat (length hash) - 40) hash =
  toHex (drop 12 (keccak256_bytes buf)).
Proof using keccak256_bytes_length.
  intros hash. unfold hash.
  rewrite length_hexlify, keccak256_bytes_length.
  change (Z.of_nat (2 + 2 * 32) - 40)%Z with (Z.of_nat 26).
  rewrite substring_drop.
  change (drop 26 (hexlify (keccak256_bytes buf)))
    with (drop (2 * 12) (toHex (keccak256_bytes buf))).
  by rewrite <- toHex_drop.
Qed.

(** Every non-empty key gets an address: the hash goes over the key
    without a leading [04], decoded as far as it is hexadecimal. *)
Lemma deriveAddressAndPublicKey_Some
    (getDerivedPublicKey :
       KeyDerivationPath -> jsstring -> result (option jsstring))
    (signerId : jsstring) (path : KeyDerivationPath) (key : jsstring) :
  getDerivedPublicKey path signerId = Ok (Some key) ->
  key <> [] ->
  EVM.deriveAddressAndPublicKey keccak256_bytes getDerivedPublicKey
    signerId path =
  Ok {| EVM.address :=
          lit "0x" ++
          toHex (drop 12 (keccak256_bytes
                            (fromHex (if startsWith (lit "04") key
                                      then drop 2 key else key))));
        EVM.publicKey := key |}.
Proof using keccak256_bytes_length.
  intros Hget Hkey. unfold EVM.deriveAddressAndPublicKey.
  rewrite Hget. cbn [bind].
  destruct key as [|c key]; [done|].
  change 2%Z with (Z.of_nat 2). rewrite substring_drop.
  unfold EVM.keccak256. cbn [getBytes bind].
  by rewrite address_of_hash.
Qed.

(** X7. The contract's key is never validated: for every non-empty key,
    whatever its length or content, [deriveAddressAndPublicKey] returns
    the key unchanged and an address of [0x] and 40 lower-case
    hexadecimal digits. *)
Theorem deriveAddressAndPublicKey_any_key
    (getDerivedPublicKey :
       KeyDerivationPath -> jsstring -> result (option jsstring))
    (signerId : jsstring) (path : KeyDerivationPath) (key : jsstring) :
  getDerivedPublicKey path signerId = Ok (Some key) ->
  key <> [] ->
  exists address,
    EVM.deriveAddressAndPublicKey keccak256_bytes getDerivedPublicKey
      signerId path =
    Ok {| EVM.address := address; EVM.publicKey := key |} /\
    length address = 42 /\
    take 2 address = lit "0x" /\
    forallb isLowerHexDigit (drop 2 address) = true.
Proof using keccak256_bytes_length.
  intros Hget Hkey. eexists. split.
  - by apply deriveAddressAndPublicKey_Some.
  - rewrite length_app, length_toHex, length_drop, keccak256_bytes_length.
    split; [done|]. split; [done|]. apply lowerHex_toHex.
Qed.

(** X8. A key with and without the leading [04] gets the same address:
    the prefix is dropped before hashing when it is there, and nothing
    is dropped when it is not. *)
Theorem deriveAddressAndPublicKey_prefix_optional
    (contract1 contract2 :
       KeyDerivationPath -> jsstring -> result (option jsstring))
    (signerId : jsstring) (path : KeyDerivationPath) (key : jsstring) :
  contract1 path signerId = Ok (Some (lit "04" ++ key)) ->
  contract2 path signerId = Ok (Some key) ->
  key <> [] -> startsWith (lit "04") key = false ->
  exists address,
    EVM.deriveAddressAndPublicKey keccak256_bytes contract1 signerId path =
      Ok {| EVM.address := address; EVM.publicKey := lit "04" ++ key |} /\
    EVM.deriveAddressAndPublicKey keccak256_bytes contract2 signerId path =
      Ok {| EVM.address := address; EVM.publicKey := key |}.
Proof using keccak256_bytes_length.
  intros H1 H2 Hkey Hprefix. eexists. split.
  - rewrite (deriveAddressAndPublicKey_Some _ _ _ _ H1) by done.
    change (startsWith (lit "04") (lit "04" ++ key)) with true.
    cbn iota. change (drop 2 (lit "04" ++ key)) with key. reflexivity.
  - rewrite (deriveAddressAndPublicKey_Some _ _ _ _ H2) by done.
    by rewrite Hprefix.
Qed.

(** X10. The payload handed to the signer is a hash: exactly 32 bytes,
    under index 0, whenever [getMPCPayloadAndTransaction] returns. *)
Theorem getMPCPayloadAndTransaction_payload_length
    (request : object) (res : EVM.PayloadAndTransaction) :
  EVM.getMPCPayloadAndTransaction keccak256_bytes connectionUrl chainId
    getTransactionCount fetchEVMFeeProperties unsignedSerialized request =
    Ok res ->
  forall p,
    p ∈ EVM.mpcPayloads res ->
    EVM.index p = 0 /\ length (EVM.payload p) = 32.
Proof using keccak256_bytes_length.
  intros H p Hp. unfold EVM.getMPCPayloadAndTransaction in H.
  bind_inv H. bind_inv H. bind_inv H. bind_inv H.
  injection H as <-. cbn [EVM.mpcPayloads] in Hp.
  apply list_elem_of_singleton in Hp as ->. cbn [EVM.index EVM.payload].
  split; [done|].
  apply keccak256_Ok_inv in Ha1 as (bytes & _ & ->).
  rewrite getBytes_hexlify in Ha2. injection Ha2 as <-.
  apply keccak256_bytes_length.
Qed.

(** X11. A signature the transaction already carries is replaced, not
    kept: [addSignature] gives the same result with and without it. *)
Theorem addSignature_replaces_signature
    (transaction : object) (old : jsval)
    (mpcSignatures : list RSV.Signature) :
  EVM.addSignature serialized Signature_from
    (<["signature" := old]> transaction) mpcSignatures =
  EVM.addSignature serialized Signature_from transaction mpcSignatures.
Proof.
  unfold EVM.addSignature.
  destruct (EVM.parseSignature _ _) as [signature|e]; [|done].
  cbn [bind]. by rewrite insert_insert_eq.
Qed.

(** X9. Field by field, what [attachGasAndNonce] returns. The request
    wins over what is fetched: every field of the request except [from]
    is in the transaction as the request has it, so a request that brings
    its own [nonce], [chainId], [type] or fee fields overrides the
    provider's. [type: 2], the nonce the provider counts for [from] and
    the chain id fill these three fields where the request lacks them.
    Every other field, where the request lacks it, and the field [from]
    in any case, is as [fetchEVMFeeProperties] answered it: present with
    the fetched value, or absent. *)
Theorem attachGasAndNonce_request_wins (request transaction : object) :
  EVM.attachGasAndNonce connectionUrl chainId getTransactionCount
    fetchEVMFeeProperties request = Ok transaction ->
  exists fees nonce,
    fetchEVMFeeProperties connectionUrl request = Ok fees /\
    getTransactionCount (prop "from" request) = Ok nonce /\
    (forall name v,
        name <> "from" -> request !! name = Some v ->
        transaction !! name = Some v) /\
    (request !! "type" = None -> transaction !! "type" = Some (VNumber 2)) /\
    (request !! "chainId" = None ->
     transaction !! "chainId" = Some (VBigInt chainId)) /\
    (request !! "nonce" = None ->
     transaction !! "nonce" = Some (VNumber nonce)) /\
    (forall name : string,
        name <> "type" -> name <> "nonce" -> name <> "chainId" ->
        name = "from" \/ request !! name = None ->
        transaction !! name = fees !! name).
Proof.
  intros Hattach.
  destruct (attachGasAndNonce_lookup _ _ _ _ _ _ Hattach)
    as (fees & nonce & Hfees & Hnonce & Hlookup).
  exists fees, nonce.
  split; [done|]. split; [done|].
  split; [|split; [|split; [|split]]].
  - intros name v Hname Hv. rewrite Hlookup, Hv. cbn zeta.
    by rewrite decide_False.
  - intros Hnone. by rewrite Hlookup, Hnone.
  - intros Hnone. by rewrite Hlookup, Hnone.
  - intros Hnone. by rewrite Hlookup, Hnone.
  - intros name Htype Hnonce' Hchain Hfrom. rewrite Hlookup. cbn zeta.
    rewrite (decide_False (P := name = "type")) by done.
    rewrite (decide_False (P := name = "nonce")) by done.
    rewrite (decide_False (P := name = "chainId")) by done.
    destruct Hfrom as [->|Hnone]; [done|].
    rewrite Hnone. by case_decide.
Qed.

End EVMMore.

(** ** More on the Bitcoin adapter *)

Lemma parseRSVSignature_Ok_length
    (signature : RSV.Signature) (bytes : list byte) :
  parseRSVSignature signature = Ok bytes -> length bytes = 64.
Proof.
  intros H.
  destruct (parseRSVSignature_cases signature) as [[Hlen Hok]|[_ Herr]].
  - rewrite Hok in H. by injection H as <-.
  - by rewrite Herr in H.
Qed.

Section BitcoinMore.

Context {SignerState KeyDerivationPath Network NetworkId Contracts Psbt : Type}.
Variable network : Network.
Variable providerUrl : jsstring.
Variable contract : Contracts.
Variable signer :
  SignerState -> list byte -> SignerState * result MPC.Signature.
Variable fetchDerivedBTCAddressAndPublicKey :
  jsstring -> KeyDerivationPath -> Network -> NetworkId -> Contracts ->
  result (jsstring * list byte).
Variable fetchBTCFeeProperties :
  jsstring -> jsstring -> jsstring -> jsstring ->
  result (list Bitcoin.UTXO * list Bitcoin.BTCOutput).
Variable fetchTransactionOuts : jsstring -> result (list Bitcoin.TxOut).
Variable completionOrder : list Bitcoin.UTXO -> list Bitcoin.UTXO.
Variable post : jsstring -> jsstring -> result (Z * option jsstring).
Variable newPsbt : Network -> Psbt.
Variable addInput : Psbt -> Bitcoin.InputOptions -> result Psbt.
Variable addOutput : Psbt -> Bitcoin.OutputOptions -> result Psbt.
Variable sighashOf : Psbt -> nat -> list byte -> result (list byte).
Variable addPartialSig : Psbt -> nat -> list byte -> list byte -> result Psbt.
Variable finalizeAllInputs : Psbt -> result Psbt.
Variable extractTransactionHex : Psbt -> result jsstring.

Abbreviation World := (Bitcoin.World SignerState).
Abbreviation signInputAsync :=
  (Bitcoin.signInputAsync signer sighashOf addPartialSig).
Abbreviation signInputs :=
  (Bitcoin.signInputs signer sighashOf addPartialSig).
Abbreviation handleTransaction :=
  (Bitcoin.handleTransaction network providerUrl contract signer
     fetchDerivedBTCAddressAndPublicKey fetchBTCFeeProperties
     fetchTransactionOuts completionOrder post newPsbt addInput addOutput
     sighashOf addPartialSig finalizeAllInputs extractTransactionHex).

(** What happens to the PSBT once every input is signed. *)
Abbreviation afterSigning psbt :=
  (let* finalized := finalizeAllInputs psbt in
   let* txHex := extractTransactionHex finalized in
   let* txid := Bitcoin.sendTransaction providerUrl post txHex in
   match txid with
   | Some (c :: id) => Ok (c :: id)
   | _ => Throw (Error "Failed to broadcast transaction")
   end).

(** Signing one input, step by step. *)
Lemma signInputAsync_cases
    (index : nat) (publicKey : list byte) (psbt : Psbt) (w : World) :
  (exists e, signInputAsync index publicKey psbt w = (w, Throw e)) \/
  (exists hash st outcome,
      signer (Bitcoin.signerState w) hash = (st, outcome) /\
      signInputAsync index publicKey psbt w =
        ({| Bitcoin.signerState := st;
            Bitcoin.trace :=
              Bitcoin.trace w ++
              [Bitcoin.Requested index hash;
               Bitcoin.Completed index outcome] |},
         let* sig := outcome in
         let* bytes := parseRSVSignature (toRSV sig) in
         addPartialSig psbt index publicKey bytes)).
Proof.
  unfold Bitcoin.signInputAsync, Bitcoin.await, Bitcoin.lift.
  destruct (sighashOf psbt index publicKey) as [hash|e]; [|by left; exists e].
  right. unfold Bitcoin.sign, Bitcoin.record. cbn [Bitcoin.signerState Bitcoin.trace].
  destruct (signer (Bitcoin.signerState w) hash) as [st outcome] eqn:Hsigner.
  exists hash, st, outcome. split; [done|].
  rewrite <- app_assoc. cbn [app].
  destruct outcome as [sig|e]; [|done]. cbn [bind].
  by destruct (parseRSVSignature (toRSV sig)).
Qed.

(** In the history of the loop a failed request is the last entry and
    its error is the loop's; when the loop completes, every request was
    answered with a signature that [parseRSVSignature] accepted. *)
Lemma signInputs_completions
    (remaining index : nat) (publicKey : list byte) (psbt : Psbt) (w : World) :
  exists evs,
    Bitcoin.trace (signInputs remaining index publicKey psbt w).1 =
      Bitcoin.trace w ++ evs /\
    (forall p i e,
        evs !! p = Some (Bitcoin.Completed i (Throw e)) ->
        S p = length evs /\
        (signInputs remaining index publicKey psbt w).2 = Throw e) /\
    (isOk (signInputs remaining index publicKey psbt w).2 = true ->
     forall p i outcome,
       evs !! p = Some (Bitcoin.Completed i outcome) ->
       exists sig bytes,
         outcome = Ok sig /\ parseRSVSignature (toRSV sig) = Ok bytes).
Proof.
  revert index psbt w.
  induction remaining as [|remaining IH]; intros index psbt w.
  - exists []. cbn. rewrite app_nil_r. split; [done|].
    split; intros; by rewrite lookup_nil in *.
  - cbn [Bitcoin.signInputs]. unfold Bitcoin.await.
    destruct (signInputAsync_cases index publicKey psbt w)
      as [[e ->]|(hash & st & outcome & Hsigner & ->)].
    + exists []. cbn [fst snd]. rewrite app_nil_r. split; [done|].
      split; [intros; by rewrite lookup_nil in *|done].
    + destruct outcome as [sig|e]; cbn [bind].
      2:{ eexists. cbn [fst snd Bitcoin.trace]. split; [reflexivity|].
          split; [|done].
          intros [|[|p]] i e' Hp; simplify_eq/=; done. }
      destruct (parseRSVSignature (toRSV sig)) as [bytes|e] eqn:Hparse;
        cbn [bind].
      2:{ eexists. cbn [fst snd Bitcoin.trace]. split; [reflexivity|].
          split; [|done].
          intros [|[|p]] i e' Hp; simplify_eq/=. }
      destruct (addPartialSig psbt index publicKey bytes) as [psbt'|e].
      2:{ eexists. cbn [fst snd Bitcoin.trace]. split; [reflexivity|].
          split; [|done].
          intros [|[|p]] i e' Hp; simplify_eq/=. }
      match goal with
      | |- context [signInputs remaining (S index) publicKey psbt' ?w1] =>
          destruct (IH (S index) psbt' w1) as (evs & Htrace & Hfail & Hok)
      end.
      exists (Bitcoin.Requested index hash ::
              Bitcoin.Completed index (Ok sig) :: evs).
      rewrite Htrace. cbn [Bitcoin.trace]. rewrite <- app_assoc.
      split; [done|]. split.
      * intros [|[|p]] i e Hp; simplify_eq/=.
        destruct (Hfail p i e Hp) as [Hlast Hres]. split; [lia|done].
      * intros Hall [|[|p]] i outcome Hp; simplify_eq/=; eauto.
Qed.

(** A run of [handleTransaction] stops before any signing, or is the
    signing loop followed by finalization and broadcast. *)
Lemma handleTransaction_cases
    (data : Bitcoin.BTCTransaction)
    (nearAuthentication : Bitcoin.NearAuthentication NetworkId)
    (path : KeyDerivationPath) (w : World) :
  (exists e, handleTransaction data nearAuthentication path w = (w, Throw e)) \/
  (exists n publicKey psbt,
      handleTransaction data nearAuthentication path w =
      match signInputs n 0 publicKey psbt w with
      | (w1, Ok signed) => (w1, afterSigning signed)
      | (w1, Throw e) => (w1, Throw e)
      end).
Proof.
  unfold Bitcoin.handleTransaction. rewrite await_lift.
  destruct (fetchDerivedBTCAddressAndPublicKey _ _ _ _ _)
    as [[address publicKey]|e]; [|by left; exists e].
  rewrite await_lift.
  destruct (Bitcoin.resolveInputsAndOutputs _ _ _ _) as [[ins outs]|e];
    [|by left; exists e].
  rewrite await_lift.
  destruct (Bitcoin.forEach _ (completionOrder ins) _) as [psbt1|e];
    [|by left; exists e].
  rewrite await_lift.
  destruct (Bitcoin.forEach _ outs psbt1) as [psbt2|e]; [|by left; exists e].
  right. exists (length ins), publicKey, psbt2.
  rewrite await_run.
  destruct (signInputs (length ins) 0 publicKey psbt2 w) as [w1 [signed|e]];
    [|done].
  rewrite await_lift.
  destruct (finalizeAllInputs signed) as [finalized|e]; [|done].
  rewrite await_lift. cbn [bind].
  destruct (extractTransactionHex finalized) as [txHex|e]; [|done].
  rewrite await_lift. cbn [bind].
  destruct (Bitcoin.sendTransaction providerUrl post txHex)
    as [[[|c id]|]|e]; done.
Qed.

(** X12. A transaction id returned by [handleTransaction] is never
    empty, and it is the body of the answer with status 200 to the POST,
    to [providerUrl + '/tx'], of this transaction: the PSBT made for the
    instance's network, given the inputs in the order their fetches
    completed and then the outputs, signed input by input by the loop
    with the derived public key, then finalized and extracted. The world
    the run leaves is the one the signing loop left. *)
Theorem handleTransaction_txid
    (data : Bitcoin.BTCTransaction)
    (nearAuthentication : Bitcoin.NearAuthentication NetworkId)
    (path : KeyDerivationPath) (w : World) (txid : jsstring) :
  (handleTransaction data nearAuthentication path w).2 = Ok txid ->
  txid <> [] /\
  exists address publicKey ins outs withInputs withOutputs w1 signed
         finalized txHex,
    fetchDerivedBTCAddressAndPublicKey
      (Bitcoin.accountId nearAuthentication) path network
      (Bitcoin.networkId nearAuthentication) contract =
      Ok (address, publicKey) /\
    Bitcoin.resolveInputsAndOutputs providerUrl fetchBTCFeeProperties
      address data = Ok (ins, outs) /\
    Bitcoin.forEach (Bitcoin.addUtxo fetchTransactionOuts addInput)
      (completionOrder ins) (newPsbt network) = Ok withInputs /\
    Bitcoin.forEach (Bitcoin.addOut addOutput address) outs withInputs =
      Ok withOutputs /\
    signInputs (length ins) 0 publicKey withOutputs w = (w1, Ok signed) /\
    finalizeAllInputs signed = Ok finalized /\
    extractTransactionHex finalized = Ok txHex /\
    post (providerUrl ++ lit "/tx") txHex = Ok (200%Z, Some txid) /\
    (handleTransaction data nearAuthentication path w).1 = w1.
Proof.
  unfold Bitcoin.handleTransaction. rewrite await_lift.
  destruct (fetchDerivedBTCAddressAndPublicKey _ _ _ _ _)
    as [[address publicKey]|e]; [|done].
  rewrite await_lift.
  destruct (Bitcoin.resolveInputsAndOutputs _ _ _ _) as [[ins outs]|e]
    eqn:Hresolved; [|done].
  rewrite await_lift.
  destruct (Bitcoin.forEach _ (completionOrder ins) _) as [withInputs|e]
    eqn:Hins; [|done].
  rewrite await_lift.
  destruct (Bitcoin.forEach _ outs withInputs) as [withOutputs|e] eqn:Houts;
    [|done].
  rewrite await_run.
  destruct (signInputs (length ins) 0 publicKey withOutputs w)
    as [w1 [signed|e]] eqn:Hsigned; [|done].
  rewrite await_lift.
  destruct (finalizeAllInputs signed) as [finalized|e] eqn:Hfinal; [|done].
  rewrite await_lift.
  destruct (extractTransactionHex finalized) as [txHex|e] eqn:Hhex; [|done].
  rewrite await_lift. unfold Bitcoin.sendTransaction.
  destruct (post (providerUrl ++ lit "/tx") txHex) as [[status body]|e]
    eqn:Hpost; [|done].
  destruct (Z.eqb_spec status 200) as [->|_]; [|done].
  destruct body as [[|c id]|]; [done| |done].
  cbn [fst snd Bitcoin.ret]. intros [= <-]. split; [done|].
  exists address, publicKey, ins, outs, withInputs, withOutputs, w1, signed,
    finalized, txHex.
  by repeat (split; [done|]).
Qed.

(** X13. Signing stops at the first failure: a request the signer
    rejects is the last exchange with the signer, no later input is
    requested, and [handleTransaction] rejects with the signer's error. *)
Theorem handleTransaction_stops_at_rejection
    (data : Bitcoin.BTCTransaction)
    (nearAuthentication : Bitcoin.NearAuthentication NetworkId)
    (path : KeyDerivationPath) (w : World)
    (evs : list Bitcoin.event) (p i : nat) (e : error) :
  Bitcoin.trace (handleTransaction data nearAuthentication path w).1 =
    Bitcoin.trace w ++ evs ->
  evs !! p = Some (Bitcoin.Completed i (Throw e)) ->
  S p = length evs /\
  (handleTransaction data nearAuthentication path w).2 = Throw e.
Proof.
  intros Htrace Hp.
  destruct (handleTransaction_cases data nearAuthentication path w)
    as [[e0 Hrun]|(n & publicKey & psbt & Hrun)]; rewrite Hrun in *.
  - cbn [fst] in Htrace.
    rewrite <- (app_nil_r (Bitcoin.trace w)) in Htrace at 1.
    apply app_inv_head in Htrace as <-. by rewrite lookup_nil in Hp.
  - destruct (signInputs_completions n 0 publicKey psbt w)
      as (evs0 & Htrace0 & Hfail & _).
    destruct (signInputs n 0 publicKey psbt w) as [w1 [signed|e0]];
      cbn [fst snd] in *; rewrite Htrace0 in Htrace;
      apply app_inv_head in Htrace as ->;
      destruct (Hfail p i e Hp) as [Hlast Hres].
    + discriminate Hres.
    + injection Hres as ->. by split.
Qed.

(** X14. A run that returns a transaction id has been given, for every
    signing request in its history, a signature, and one that
    [parseRSVSignature (toRSV _)] encodes to exactly 64 bytes. *)
Theorem handleTransaction_returns_signed
    (data : Bitcoin.BTCTransaction)
    (nearAuthentication : Bitcoin.NearAuthentication NetworkId)
    (path : KeyDerivationPath) (w : World) (txid : jsstring)
    (evs : list Bitcoin.event) (p i : nat)
    (outcome : result MPC.Signature) :
  (handleTransaction data nearAuthentication path w).2 = Ok txid ->
  Bitcoin.trace (handleTransaction data nearAuthentication path w).1 =
    Bitcoin.trace w ++ evs ->
  evs !! p = Some (Bitcoin.Completed i outcome) ->
  exists sig bytes,
    outcome = Ok sig /\
    parseRSVSignature (toRSV sig) = Ok bytes /\
    length bytes = 64.
Proof.
  intros Hres Htrace Hp.
  destruct (handleTransaction_cases data nearAuthentication path w)
    as [[e0 Hrun]|(n & publicKey & psbt & Hrun)]; rewrite Hrun in *;
    [done|].
  destruct (signInputs_completions n 0 publicKey psbt w)
    as (evs0 & Htrace0 & _ & Hok).
  destruct (signInputs n 0 publicKey psbt w) as [w1 [signed|e0]];
    cbn [fst snd] in *; [|done].
  rewrite Htrace0 in Htrace. apply app_inv_head in Htrace as ->.
  destruct (Hok eq_refl p i outcome Hp) as (sig & bytes & -> & Hparse).
  exists sig, bytes. split; [done|]. split; [done|].
  by apply (parseRSVSignature_Ok_length (toRSV sig)).
Qed.

End BitcoinMore.

(** ** The further properties on sample collaborators *)

Lemma deriveAddressAndPublicKey_any_key_witness :
  exists address,
    EVM.deriveAddressAndPublicKey sampleDigest
      (fun _ _ => Ok (Some (lit "not-a-key")))
      (lit "alice.near") (lit "ethereum-1") =
    Ok {| EVM.address := address; EVM.publicKey := lit "not-a-key" |} /\
    length address = 42.
Proof.
  destruct (deriveAddressAndPublicKey_any_key sampleDigest
              length_sampleDigest (fun _ _ => Ok (Some (lit "not-a-key")))
              (lit "alice.near") (lit "ethereum-1") (lit "not-a-key")
              eq_refl)
    as (address & Hok & Hlen & _); [discriminate|].
  by exists address.
Defined.

Lemma deriveAddressAndPublicKey_prefix_optional_witness :
  exists address,
    EVM.deriveAddressAndPublicKey sampleDigest
      (fun _ _ => Ok (Some (lit "04" ++ toHex (replicate 64 x01))))
      (lit "alice.near") (lit "ethereum-1") =
    Ok {| EVM.address := address;
          EVM.publicKey := lit "04" ++ toHex (replicate 64 x01) |} /\
    EVM.deriveAddressAndPublicKey sampleDigest
      (fun _ _ => Ok (Some (toHex (replicate 64 x01))))
      (lit "alice.near") (lit "ethereum-1") =
    Ok {| EVM.address := address;
          EVM.publicKey := toHex (replicate 64 x01) |}.
Proof.
  apply (deriveAddressAndPublicKey_prefix_optional sampleDigest
           length_sampleDigest
           (fun _ _ => Ok (Some (lit "04" ++ toHex (replicate 64 x01))))
           (fun _ _ => Ok (Some (toHex (replicate 64 x01))))
           (lit "alice.near") (lit "ethereum-1")
           (toHex (replicate 64 x01)));
    [reflexivity|reflexivity|discriminate|reflexivity].
Defined.

Lemma attachGasAndNonce_request_wins_witness :
  exists transaction,
    EVM.attachGasAndNonce sampleUrl 1 sampleNonce sampleFees
      validRequestWithNonce = Ok transaction /\
    transaction !! "nonce" = Some (VNumber 99) /\
    transaction !! "maxFeePerGas" = Some (VBigInt 50) /\
    transaction !! "type" = Some (VNumber 2) /\
    transaction !! "chainId" = Some (VBigInt 1) /\
    transaction !! "gasLimit" = Some (VBigInt 21000) /\
    transaction !! "from" = None.
Proof.
  eexists. split; [reflexivity|].
  destruct (attachGasAndNonce_request_wins sampleUrl 1 sampleNonce sampleFees
              validRequestWithNonce _ eq_refl)
    as (fees & nonce & Hfees & _ & Hkept & Htype & Hchain & _ & Hfilled).
  injection Hfees as <-.
  split; [apply Hkept; [done|by vm_compute]|].
  split; [apply Hkept; [done|by vm_compute]|].
  split; [apply Htype; by vm_compute|].
  split; [apply Hchain; by vm_compute|].
  split.
  - rewrite Hfilled; [by vm_compute|done|done|done|right; by vm_compute].
  - rewrite Hfilled; [by vm_compute|done|done|done|by left].
Defined.

Lemma getMPCPayloadAndTransaction_payload_length_witness :
  length (sampleDigest [x02; xc0]) = 32.
Proof.
  destruct (getMPCPayloadAndTransaction_payload_length sampleDigest sampleUrl
              1 sampleNonce sampleFees sampleUnsigned length_sampleDigest
              sampleRequest
              {| EVM.transaction := sampleAttached;
                 EVM.mpcPayloads :=
                   [ {| EVM.index := 0;
                        EVM.payload := sampleDigest [x02; xc0] |} ] |}
              eq_refl
              {| EVM.index := 0; EVM.payload := sampleDigest [x02; xc0] |})
    as [_ Hlen]; [apply list_elem_of_here|].
  exact Hlen.
Defined.

Lemma handleTransaction_txid_witness :
  exists w1 signed finalized txHex,
    Bitcoin.signInputs sampleSigner sampleSighash sampleAddPartialSig 2 0
      exampleKey unsignedPsbt freshWorld = (w1, Ok signed) /\
    exampleFinalize signed = Ok finalized /\
    exampleExtract finalized = Ok txHex /\
    examplePost (lit "https://btc.example" ++ lit "/tx") txHex =
      Ok (200%Z, Some (replicate 64 "c"%char)).
Proof.
  destruct (handleTransaction_txid
              tt (lit "https://btc.example") tt sampleSigner exampleDerive
              sampleFeeProperties exampleOuts (fun ins => ins) examplePost
              (fun _ => ([] : SamplePsbt)) sampleAddInput sampleAddOutput
              sampleSighash sampleAddPartialSig exampleFinalize
              exampleExtract
              exampleSpend sampleAuthentication (lit "bitcoin-1") freshWorld
              (replicate 64 "c"%char))
    as (_ & address & publicKey & ins & outs & withInputs & withOutputs &
        w1 & signed & finalized & txHex &
        Hderived & Hresolved & Hins & Houts & Hsigned & Hfinal & Hhex &
        Hpost & _);
    [vm_compute; reflexivity|].
  injection Hderived as <- <-. injection Hresolved as <- <-.
  injection Hins as <-. injection Houts as <-.
  by exists w1, signed, finalized, txHex.
Defined.

Example rejectedRun_trace :
  Bitcoin.trace rejectedRun.1 =
    [ Bitcoin.Requested 0 [xaa; x01]; Bitcoin.Completed 0 (Ok sampleMPC);
      Bitcoin.Requested 1 [xbb; x02];
      Bitcoin.Completed 1 (Throw (Upstream "signer unavailable")) ].
Proof. vm_compute. reflexivity. Qed.

Lemma handleTransaction_stops_at_rejection_witness :
  4 = length (Bitcoin.trace rejectedRun.1) /\
  rejectedRun.2 = Throw (Upstream "signer unavailable").
Proof.
  apply (handleTransaction_stops_at_rejection
           tt (lit "https://btc.example") tt rejectingSigner sampleDerive
           sampleFeeProperties sampleOuts (fun ins => ins) samplePost
           (fun _ => ([] : SamplePsbt)) sampleAddInput sampleAddOutput
           sampleSighash sampleAddPartialSig (fun psbt => Ok psbt)
           (fun _ => Ok (lit "0200"))
           threeInputs sampleAuthentication (lit "bitcoin-1") freshWorld
           (Bitcoin.trace rejectedRun.1) 3 1
           (Upstream "signer unavailable"));
    [reflexivity|vm_compute; reflexivity].
Defined.

Lemma handleTransaction_returns_signed_witness :
  exists sig bytes,
    Ok sampleMPC = Ok sig /\
    parseRSVSignature (toRSV sig) = Ok bytes /\ length bytes = 64.
Proof.
  apply (handleTransaction_returns_signed
           tt (lit "https://btc.example") tt sampleSigner sampleDerive
           sampleFeeProperties sampleOuts (fun ins => ins) samplePost
           (fun _ => ([] : SamplePsbt)) sampleAddInput sampleAddOutput
           sampleSighash sampleAddPartialSig (fun psbt => Ok psbt)
           (fun _ => Ok (lit "0200"))
           twoInputs sampleAuthentication (lit "bitcoin-1") freshWorld
           (lit "txid-of-broadcast") (Bitcoin.trace sampleRun.1) 1 0
           (Ok sampleMPC));
    [vm_compute; reflexivity|reflexivity|vm_compute; reflexivity].
Defined.

(** ** Pending transactions in the storage *)

Section StorageTheory.

Context {Parsed : Type}.
Variable JSON_stringify : object -> result jsstring.
Variable JSON_parse : jsstring -> result Parsed.

Abbreviation setTransaction := (EVMStorage.setTransaction JSON_stringify).
Abbreviation getTransaction := (EVMStorage.getTransaction JSON_parse).

(** X15. Reading with [remove] is reading once: the answer is that of a
    plain read, the item is gone afterwards even when [JSON.parse] threw,
    the other items are untouched, and the next read of the key returns
    [undefined]. *)
Theorem getTransaction_remove_reads_once
    (storageKey : string) (storage : EVMStorage.Storage) :
  (getTransaction storageKey true storage).2 =
    (getTransaction storageKey false storage).2 /\
  (getTransaction storageKey false storage).1 = storage /\
  (getTransaction storageKey true storage).1 !! storageKey = None /\
  (forall other,
      other <> storageKey ->
      (getTransaction storageKey true storage).1 !! other =
        storage !! other) /\
  (forall remove,
      getTransaction storageKey remove
        (getTransaction storageKey true storage).1 =
      ((getTransaction storageKey true storage).1, Ok None)).
Proof.
  assert (Hst : forall remove,
             (getTransaction storageKey remove storage).1 =
             if remove then delete storageKey storage else storage).
  { intros remove. unfold EVMStorage.getTransaction.
    by destruct (storage !! storageKey) as [[|c text]|]. }
  split; [|split; [|split; [|split]]].
  - unfold EVMStorage.getTransaction.
    by destruct (storage !! storageKey) as [[|c text]|].
  - apply Hst.
  - rewrite Hst. apply lookup_delete_eq.
  - intros other Hother. rewrite Hst. by apply lookup_delete_ne.
  - intros remove. rewrite Hst. unfold EVMStorage.getTransaction.
    rewrite lookup_delete_eq.
    destruct remove; [|done]. by rewrite delete_delete_eq.
Qed.

(** X16. Writing then reading: after [setTransaction] the key holds the
    text [JSON.stringify] produced, a read of the key parses exactly that
    text (and yields [undefined] if it is empty), reads of other keys
    answer as before, and a second write under the key replaces the
    first. *)
Theorem setTransaction_then_getTransaction
    (transaction : object) (storageKey : string)
    (storage : EVMStorage.Storage) (text : jsstring) :
  JSON_stringify (EVMStorage.replacer <$> transaction) = Ok text ->
  let stored := (setTransaction transaction storageKey storage).1 in
  stored !! storageKey = Some text /\
  (getTransaction storageKey false stored).2 =
    match text with
    | [] => Ok None
    | _ => let* parsed := JSON_parse text in Ok (Some parsed)
    end /\
  (forall other remove,
      other <> storageKey ->
      (getTransaction other remove stored).2 =
        (getTransaction other remove storage).2) /\
  (forall transaction',
      isOk (JSON_stringify (EVMStorage.replacer <$> transaction')) = true ->
      (setTransaction transaction' storageKey stored).1 =
        (setTransaction transaction' storageKey storage).1).
Proof.
  intros Htext stored. subst stored.
  unfold EVMStorage.setTransaction. rewrite Htext. cbn [fst].
  split; [apply lookup_insert_eq|]. split; [|split].
  - unfold EVMStorage.getTransaction. rewrite lookup_insert_eq.
    by destruct text.
  - intros other remove Hother. unfold EVMStorage.getTransaction.
    rewrite lookup_insert_ne by done.
    by destruct (storage !! other) as [[|c t]|].
  - intros transaction' Hok.
    destruct (JSON_stringify (EVMStorage.replacer <$> transaction'));
      [|done].
    cbn [fst]. apply insert_insert_eq.
Qed.

(** A failed serialization leaves the storage as it was. *)
Lemma setTransaction_failure
    (transaction : object) (storageKey : string)
    (storage : EVMStorage.Storage) (e : error) :
  JSON_stringify (EVMStorage.replacer <$> transaction) = Throw e ->
  setTransaction transaction storageKey storage = (storage, Throw e).
Proof. intros H. unfold EVMStorage.setTransaction. by rewrite H. Qed.

End StorageTheory.

(** X17. What [setTransaction] stores for a transaction that
    [attachGasAndNonce] built from a request without a chain id: the
    object handed to [JSON.stringify] has every bigint field of the
    transaction as its decimal string and every other field as it is, so
    its [chainId] is the string of the provider's chain id, not a number;
    when [JSON.stringify] returns a text, the storage holds that text
    under the key and is otherwise unchanged, and when it throws, the
    storage is left as it was and the error is passed on. *)
Theorem setTransaction_stores_chainId_as_string
    (JSON_stringify : object -> result jsstring)
    (connectionUrl : jsstring) (chainId : Z)
    (getTransactionCount : jsval -> result Z)
    (fetchEVMFeeProperties : jsstring -> object -> result object)
    (request transaction : object)
    (storageKey : string) (storage : EVMStorage.Storage) :
  EVM.attachGasAndNonce connectionUrl chainId getTransactionCount
    fetchEVMFeeProperties request = Ok transaction ->
  request !! "chainId" = None ->
  exists handed : object,
    (forall name : string,
        handed !! name =
        match transaction !! name with
        | Some (VBigInt n) => Some (VString (EVMStorage.bigintToString n))
        | other => other
        end) /\
    transaction !! "chainId" = Some (VBigInt chainId) /\
    handed !! "chainId" =
      Some (VString (EVMStorage.bigintToString chainId)) /\
    match JSON_stringify handed with
    | Ok text =>
        EVMStorage.setTransaction JSON_stringify transaction storageKey
          storage = (<[storageKey := text]> storage, Ok tt) /\
        (EVMStorage.setTransaction JSON_stringify transaction storageKey
           storage).1 !! storageKey = Some text /\
        forall other,
          other <> storageKey ->
          (EVMStorage.setTransaction JSON_stringify transaction storageKey
             storage).1 !! other = storage !! other
    | Throw e =>
        EVMStorage.setTransaction JSON_stringify transaction storageKey
          storage = (storage, Throw e)
    end.
Proof.
  intros Hattach Hnone.
  destruct (attachGasAndNonce_lookup _ _ _ _ _ _ Hattach)
    as (fees & nonce & _ & _ & Hlookup).
  assert (Hchain : transaction !! "chainId" = Some (VBigInt chainId)).
  { rewrite Hlookup, Hnone. by vm_compute. }
  exists (EVMStorage.replacer <$> transaction).
  split; [|split; [done|split]].
  - intros name. rewrite lookup_fmap.
    by destruct (transaction !! name) as [[]|].
  - by rewrite lookup_fmap, Hchain.
  - unfold EVMStorage.setTransaction.
    destruct (JSON_stringify (EVMStorage.replacer <$> transaction))
      as [text|e]; [|done].
    cbn [fst]. split; [done|]. split; [apply lookup_insert_eq|].
    intros other Hother. by apply lookup_insert_ne.
Qed.

Lemma setTransaction_then_getTransaction_witness :
  (EVMStorage.getTransaction (fun text => Ok (length text)) "pending"
     false
     (EVMStorage.setTransaction (fun _ => Ok (lit "{}")) sampleAttached
        "pending" ∅).1).2 = Ok (Some 2).
Proof.
  destruct (setTransaction_then_getTransaction (fun _ => Ok (lit "{}"))
              (fun text => Ok (length text)) sampleAttached "pending" ∅
              (lit "{}") eq_refl) as (_ & Hread & _).
  exact Hread.
Defined.

Lemma setTransaction_stores_chainId_as_string_witness :
  EVMStorage.setTransaction showChainId validAttached "pending" ∅ =
    (<["pending" := lit "chainId:1"]> ∅, Ok tt).
Proof.
  destruct (setTransaction_stores_chainId_as_string showChainId sampleUrl 1
              sampleNonce sampleFees validRequest validAttached "pending" ∅
              eq_refl)
    as (handed & _ & _ & Hchain & Hstored); [by vm_compute|].
  unfold showChainId in Hstored at 1. rewrite Hchain in Hstored.
  exact (proj1 Hstored).
Defined.

(** ** Fetching a transaction *)

Section FetchTheory.

Variable providerUrl : jsstring.
Variable get : jsstring -> result TxData.t.
Variable checkInput :
  list byte -> nat -> option Z -> option (list byte) -> result unit.
Variable checkOutput : list byte -> Z -> result unit.
Variable checkWitness : nat -> list (list byte) -> result unit.

Abbreviation addVin := (BitcoinFetch.addVin checkInput).
Abbreviation addVout := (BitcoinFetch.addVout checkOutput).
Abbreviation setWitnesses := (BitcoinFetch.setWitnesses checkWitness).
Abbreviation fetchTransaction :=
  (BitcoinFetch.fetchTransaction providerUrl get checkInput checkOutput
     checkWitness).

(** The script [addVin] passes on is the decoded [scriptsig], empty when
    there is none. *)
Lemma addVin_Ok_inv (tx tx' : Tx.t) (vin : Vin.t) :
  addVin tx vin = Ok tx' ->
  tx' = {| Tx.version := Tx.version tx; Tx.locktime := Tx.locktime tx;
           Tx.ins := Tx.ins tx ++ [bareInputOfVin vin];
           Tx.outs := Tx.outs tx |}.
Proof.
  unfold BitcoinFetch.addVin, Tx.addInput. intros H. bind_inv H.
  injection H as <-. unfold bareInputOfVin.
  by destruct (Vin.scriptsig vin) as [[|c s]|].
Qed.

Lemma forEach_addVin_Ok_inv (vins : list Vin.t) (tx tx' : Tx.t) :
  Bitcoin.forEach addVin vins tx = Ok tx' ->
  tx' = {| Tx.version := Tx.version tx; Tx.locktime := Tx.locktime tx;
           Tx.ins := Tx.ins tx ++ (bareInputOfVin <$> vins);
           Tx.outs := Tx.outs tx |}.
Proof.
  revert tx. induction vins as [|vin vins IH]; intros tx H.
  - injection H as <-. destruct tx. cbn. by rewrite app_nil_r.
  - cbn [Bitcoin.forEach] in H. bind_inv H.
    apply addVin_Ok_inv in Ha as ->. apply IH in H as ->.
    cbn. by rewrite <- app_assoc.
Qed.

Lemma forEach_addVout_Ok_inv (vouts : list Vout.t) (tx tx' : Tx.t) :
  Bitcoin.forEach addVout vouts tx = Ok tx' ->
  tx' = {| Tx.version := Tx.version tx; Tx.locktime := Tx.locktime tx;
           Tx.ins := Tx.ins tx;
           Tx.outs := Tx.outs tx ++ (outputOfVout <$> vouts) |}.
Proof.
  revert tx. induction vouts as [|vout vouts IH]; intros tx H.
  - injection H as <-. destruct tx. cbn. by rewrite app_nil_r.
  - cbn [Bitcoin.forEach] in H. bind_inv H.
    unfold BitcoinFetch.addVout, Tx.addOutput in Ha. bind_inv Ha.
    injection Ha as <-. apply IH in H as ->.
    cbn. by rewrite <- app_assoc.
Qed.

(** The second pass over the inputs sets the witness of each input that
    has one and leaves everything else as it is. *)
Lemma setWitnesses_Ok_inv
    (vins : list Vin.t) (index : nat) (done_ : list Tx.input)
    (tx tx' : Tx.t) :
  Tx.ins tx = done_ ++ (bareInputOfVin <$> vins) ->
  length done_ = index ->
  setWitnesses index vins tx = Ok tx' ->
  tx' = {| Tx.version := Tx.version tx; Tx.locktime := Tx.locktime tx;
           Tx.ins := done_ ++ (inputOfVin <$> vins);
           Tx.outs := Tx.outs tx |}.
Proof.
  revert index done_ tx.
  induction vins as [|vin vins IH]; intros index done_ tx Hins Hlen H.
  - injection H as <-. destruct tx. cbn in *. by rewrite Hins.
  - cbn [BitcoinFetch.setWitnesses] in H. bind_inv H.
    assert (Hstep : a = {| Tx.version := Tx.version tx;
                           Tx.locktime := Tx.locktime tx;
                           Tx.ins := (done_ ++ [inputOfVin vin]) ++
                                     (bareInputOfVin <$> vins);
                           Tx.outs := Tx.outs tx |}).
    { destruct (Vin.witness vin) as [[|w ws]|] eqn:Hw.
      - injection Ha as <-. destruct tx. cbn in *. rewrite Hins.
        rewrite <- app_assoc. do 3 f_equal.
        unfold inputOfVin. by rewrite Hw.
      - unfold Tx.setWitness in Ha. bind_inv Ha.
        rewrite Hins in Ha. subst index.
        rewrite lookup_app_r, Nat.sub_diag in Ha by done.
        cbn [fmap list_fmap lookup list_lookup] in Ha.
        injection Ha as <-. f_equal.
        rewrite <- app_assoc. cbn [app fmap list_fmap].
        replace (length done_) with (length done_ + 0) at 1 by lia.
        rewrite insert_app_r. cbn. do 2 f_equal.
        unfold inputOfVin. by rewrite Hw.
      - injection Ha as <-. destruct tx. cbn in *. rewrite Hins.
        rewrite <- app_assoc. do 3 f_equal.
        unfold inputOfVin. by rewrite Hw. }
    subst a.
    apply (IH (S index) (done_ ++ [inputOfVin vin])) in H as ->.
    + cbn. by rewrite <- app_assoc.
    + done.
    + rewrite length_app. cbn. lia.
Qed.

Lemma fetchTransaction_Ok_inv (transactionId : jsstring) (tx : Tx.t) :
  fetchTransaction transactionId = Ok tx ->
  exists data,
    get (providerUrl ++ lit "/tx/" ++ transactionId) = Ok data /\
    tx = {| Tx.version := TxData.version data;
            Tx.locktime := TxData.locktime data;
            Tx.ins := inputOfVin <$> TxData.vin data;
            Tx.outs := outputOfVout <$> TxData.vout data |}.
Proof.
  unfold BitcoinFetch.fetchTransaction. intros H. bind_inv H.
  exists a. split; [done|]. bind_inv H. bind_inv H.
  apply forEach_addVin_Ok_inv in Ha0 as ->.
  apply forEach_addVout_Ok_inv in Ha1 as ->.
  by apply (setWitnesses_Ok_inv _ 0 []) in H as ->.
Qed.

(** What the library is asked to accept for an entry of the answer. *)
Abbreviation inputAccepted vin :=
  (checkInput (rev (fromHex (Vin.txid vin))) (Vin.vout vin)
     (Vin.sequence vin)
     match Vin.scriptsig vin with
     | Some (c :: s) => Some (fromHex (c :: s))
     | _ => None
     end = Ok tt).
Abbreviation outputAccepted vout :=
  (checkOutput (fromHex (Vout.scriptpubkey vout)) (Vout.value vout) = Ok tt).
Abbreviation witnessesAccepted first vins :=
  (forall i vin w ws,
      vins !! i = Some vin ->
      Vin.witness vin = Some (w :: ws) ->
      checkWitness (first + i) (fromHex <$> (w :: ws)) = Ok tt).

Lemma forEach_addVin_passes (vins : list Vin.t) (tx : Tx.t) :
  Forall (fun vin => inputAccepted vin) vins ->
  isOk (Bitcoin.forEach addVin vins tx) = true.
Proof.
  intros Hall. revert tx.
  induction Hall as [|vin vins Hvin _ IH]; intros tx; [done|].
  cbn [Bitcoin.forEach]. unfold BitcoinFetch.addVin at 1, Tx.addInput.
  rewrite Hvin. cbn [bind]. apply IH.
Qed.

Lemma forEach_addVin_checked (vins : list Vin.t) (tx tx' : Tx.t) :
  Bitcoin.forEach addVin vins tx = Ok tx' ->
  Forall (fun vin => inputAccepted vin) vins.
Proof.
  revert tx. induction vins as [|vin vins IH]; intros tx H; [done|].
  cbn [Bitcoin.forEach] in H. bind_inv H. constructor; [|by eapply IH].
  unfold BitcoinFetch.addVin, Tx.addInput in Ha.
  by destruct (checkInput _ _ _ _) as [[]|].
Qed.

Lemma forEach_addVout_passes (vouts : list Vout.t) (tx : Tx.t) :
  Forall (fun vout => outputAccepted vout) vouts ->
  isOk (Bitcoin.forEach addVout vouts tx) = true.
Proof.
  intros Hall. revert tx.
  induction Hall as [|vout vouts Hvout _ IH]; intros tx; [done|].
  cbn [Bitcoin.forEach]. unfold BitcoinFetch.addVout at 1, Tx.addOutput.
  rewrite Hvout. cbn [bind]. apply IH.
Qed.

Lemma forEach_addVout_checked (vouts : list Vout.t) (tx tx' : Tx.t) :
  Bitcoin.forEach addVout vouts tx = Ok tx' ->
  Forall (fun vout => outputAccepted vout) vouts.
Proof.
  revert tx. induction vouts as [|vout vouts IH]; intros tx H; [done|].
  cbn [Bitcoin.forEach] in H. bind_inv H. constructor; [|by eapply IH].
  unfold BitcoinFetch.addVout, Tx.addOutput in Ha.
  by destruct (checkOutput _ _) as [[]|].
Qed.

Lemma setWitnesses_passes
    (vins : list Vin.t) (index : nat) (done_ : list Tx.input) (tx : Tx.t) :
  witnessesAccepted index vins ->
  Tx.ins tx = done_ ++ (bareInputOfVin <$> vins) ->
  length done_ = index ->
  isOk (setWitnesses index vins tx) = true.
Proof.
  revert index done_ tx.
  induction vins as [|vin vins IH]; intros index done_ tx Hacc Hins Hlen;
    [done|].
  assert (Hrest : witnessesAccepted (S index) vins).
  { intros i vin' w ws Hi Hw.
    replace (S index + i) with (index + S i) by lia. by eapply Hacc. }
  cbn [BitcoinFetch.setWitnesses].
  destruct (Vin.witness vin) as [[|w ws]|] eqn:Hw; cbn [bind].
  - apply (IH _ (done_ ++ [bareInputOfVin vin])); [done| |].
    + by rewrite Hins, <- app_assoc.
    + rewrite length_app; cbn; lia.
  - unfold Tx.setWitness.
    pose proof (Hacc 0 vin w ws eq_refl Hw) as Hcheck.
    rewrite Nat.add_0_r in Hcheck. rewrite Hcheck. cbn [bind].
    rewrite Hins. subst index.
    rewrite lookup_app_r, Nat.sub_diag by done.
    cbn [fmap list_fmap lookup list_lookup bind].
    eapply (IH _ (done_ ++ [_])); [done| |rewrite length_app; cbn; lia].
    cbn [Tx.ins].
    replace (length done_) with (length done_ + 0) at 1 by lia.
    rewrite insert_app_r. cbn. by rewrite <- app_assoc.
  - apply (IH _ (done_ ++ [bareInputOfVin vin])); [done| |].
    + by rewrite Hins, <- app_assoc.
    + rewrite length_app; cbn; lia.
Qed.

Lemma setWitnesses_checked
    (vins : list Vin.t) (index : nat) (tx tx' : Tx.t) :
  setWitnesses index vins tx = Ok tx' ->
  witnessesAccepted index vins.
Proof.
  revert index tx.
  induction vins as [|vin vins IH]; intros index tx H i vin' w ws Hi Hw;
    [by rewrite lookup_nil in Hi|].
  cbn [BitcoinFetch.setWitnesses] in H. bind_inv H.
  destruct i as [|i]; cbn in Hi.
  - injection Hi as ->. rewrite Hw in Ha. rewrite Nat.add_0_r.
    unfold Tx.setWitness in Ha.
    by destruct (checkWitness _ _) as [[]|].
  - replace (index + S i) with (S index + i) by lia.
    by eapply (IH (S index)).
Qed.

(** X18. Given the provider's answer, [fetchTransaction] returns exactly
    when the library accepts what it is handed for each entry: for every
    [vin] the hash (the id with its bytes reversed), output number,
    sequence and script, for every [vout] the script and the value, and
    for every input with a non-empty witness its number and the witness.
    What it returns then is the answer, entry by entry: same version and
    locktime, one input per [vin] in the same order (a missing sequence is
    the default, the witness is set where the answer has a non-empty one)
    and one output per [vout]. *)
Theorem fetchTransaction_builds_answer
    (transactionId : jsstring) (data : TxData.t) :
  get (providerUrl ++ lit "/tx/" ++ transactionId) = Ok data ->
  (Forall
     (fun vin =>
        checkInput (rev (fromHex (Vin.txid vin))) (Vin.vout vin)
          (Vin.sequence vin)
          match Vin.scriptsig vin with
          | Some (c :: s) => Some (fromHex (c :: s))
          | _ => None
          end = Ok tt)
     (TxData.vin data) /\
   Forall
     (fun vout =>
        checkOutput (fromHex (Vout.scriptpubkey vout)) (Vout.value vout) =
          Ok tt)
     (TxData.vout data) /\
   (forall i vin w ws,
       TxData.vin data !! i = Some vin ->
       Vin.witness vin = Some (w :: ws) ->
       checkWitness i (fromHex <$> (w :: ws)) = Ok tt)) <->
  fetchTransaction transactionId =
    Ok {| Tx.version := TxData.version data;
          Tx.locktime := TxData.locktime data;
          Tx.ins := inputOfVin <$> TxData.vin data;
          Tx.outs := outputOfVout <$> TxData.vout data |}.
Proof.
  intros Hget. split.
  - intros (Hins & Houts & Hwits).
    assert (Hok : isOk (fetchTransaction transactionId) = true).
    { unfold BitcoinFetch.fetchTransaction. rewrite Hget. cbn [bind].
      pose proof (forEach_addVin_passes (TxData.vin data)
                    (Tx.create (TxData.version data) (TxData.locktime data))
                    Hins) as Hins'.
      destruct (Bitcoin.forEach addVin _ _) as [tx1|] eqn:H1; [|done].
      cbn [bind].
      pose proof (forEach_addVout_passes (TxData.vout data) tx1 Houts)
        as Houts'.
      destruct (Bitcoin.forEach addVout _ _) as [tx2|] eqn:H2; [|done].
      cbn [bind].
      apply forEach_addVin_Ok_inv in H1 as ->.
      apply forEach_addVout_Ok_inv in H2 as ->.
      by apply (setWitnesses_passes _ 0 []). }
    destruct (fetchTransaction transactionId) as [tx|] eqn:Hfetch; [|done].
    apply fetchTransaction_Ok_inv in Hfetch as (data' & Hget' & ->).
    rewrite Hget in Hget'. by injection Hget' as <-.
  - unfold BitcoinFetch.fetchTransaction. rewrite Hget. cbn [bind].
    intros H. bind_inv H. bind_inv H.
    split; [by eapply forEach_addVin_checked|].
    split; [by eapply forEach_addVout_checked|].
    by apply (setWitnesses_checked _ 0 _ _ H).
Qed.

End FetchTheory.

(** X19. Whatever the library accepts or refuses, a transaction that
    [fetchTransaction] returns has exactly the inputs and outputs of the
    provider's answer, in the same order. *)
Theorem fetchTransaction_returns_answer
    (providerUrl : jsstring) (get : jsstring -> result TxData.t)
    (checkInput :
       list byte -> nat -> option Z -> option (list byte) -> result unit)
    (checkOutput : list byte -> Z -> result unit)
    (checkWitness : nat -> list (list byte) -> result unit)
    (transactionId : jsstring) (tx : Tx.t) :
  BitcoinFetch.fetchTransaction providerUrl get checkInput checkOutput
    checkWitness transactionId = Ok tx ->
  exists data,
    get (providerUrl ++ lit "/tx/" ++ transactionId) = Ok data /\
    Tx.version tx = TxData.version data /\
    Tx.locktime tx = TxData.locktime data /\
    Tx.ins tx = inputOfVin <$> TxData.vin data /\
    Tx.outs tx = outputOfVout <$> TxData.vout data.
Proof.
  intros H. apply fetchTransaction_Ok_inv in H as (data & Hget & ->).
  by exists data.
Qed.

(** X20. [handleTransaction] on top of [fetchTransaction]: the script
    given to the PSBT for an input is the decoded [scriptpubkey] of the
    output the input spends, while the amount is the caller's
    [utxo.value], the fetched value being left unread; an output number
    the fetched transaction does not have is a [TypeError]. *)
Theorem addUtxo_of_fetched_transaction
    {Psbt : Type}
    (providerUrl : jsstring) (get : jsstring -> result TxData.t)
    (checkInput :
       list byte -> nat -> option Z -> option (list byte) -> result unit)
    (checkOutput : list byte -> Z -> result unit)
    (checkWitness : nat -> list (list byte) -> result unit)
    (addInput : Psbt -> Bitcoin.InputOptions -> result Psbt)
    (psbt : Psbt) (utxo : Bitcoin.UTXO) (tx : Tx.t) :
  BitcoinFetch.fetchTransaction providerUrl get checkInput checkOutput
    checkWitness (Bitcoin.txid utxo) = Ok tx ->
  exists data,
    get (providerUrl ++ lit "/tx/" ++ Bitcoin.txid utxo) = Ok data /\
    Bitcoin.addUtxo
      (BitcoinFetch.fetchTransactionOuts providerUrl get checkInput
         checkOutput checkWitness)
      addInput psbt utxo =
    match TxData.vout data !! Bitcoin.vout utxo with
    | Some out =>
        addInput psbt
          {| Bitcoin.hash := Bitcoin.txid utxo;
             Bitcoin.index := Bitcoin.vout utxo;
             Bitcoin.witnessUtxo :=
               (fromHex (Vout.scriptpubkey out), Bitcoin.value utxo) |}
    | None =>
        Throw (TypeError
                 "Cannot read properties of undefined (reading 'script')")
    end.
Proof.
  intros Hfetch.
  destruct (fetchTransaction_Ok_inv _ _ _ _ _ _ _ Hfetch)
    as (data & Hget & ->).
  exists data. split; [done|].
  unfold Bitcoin.addUtxo, BitcoinFetch.fetchTransactionOuts.
  rewrite Hfetch. cbn [bind Tx.outs]. rewrite list_lookup_fmap.
  by destruct (TxData.vout data !! Bitcoin.vout utxo).
Qed.

Example fetchTransaction_sample :
  BitcoinFetch.fetchTransaction (lit "https://btc.example") sampleGet
    passInput passOutput passWitness (lit "a1b2") =
  Ok {| Tx.version := 2;
        Tx.locktime := 0;
        Tx.ins :=
          [ {| Tx.hash := [x0c; x0b; x0a]; Tx.index := 1; Tx.script := [];
               Tx.sequence := 4294967293; Tx.witness := [] |};
            {| Tx.hash := [xb2; xa1]; Tx.index := 0; Tx.script := [x51];
               Tx.sequence := 4294967295;
               Tx.witness := [[x30; x44]; [x02; xab]] |} ];
        Tx.outs :=
          [ {| Bitcoin.script := [x00; x14; xaa]; Bitcoin.outValue := 5000 |};
            {| Bitcoin.script := [x00; x14; xbb];
               Bitcoin.outValue := 7000 |} ] |}.
Proof. reflexivity. Qed.

Lemma fetchTransaction_builds_answer_witness :
  BitcoinFetch.fetchTransaction (lit "https://btc.example") exampleGet
    strictInput strictOutput passWitness (replicate 64 "c"%char) =
  Ok {| Tx.version := 2;
        Tx.locktime := 0;
        Tx.ins := inputOfVin <$> TxData.vin exampleTxData;
        Tx.outs := outputOfVout <$> TxData.vout exampleTxData |}.
Proof.
  apply (fetchTransaction_builds_answer (lit "https://btc.example")
           exampleGet strictInput strictOutput passWitness
           (replicate 64 "c"%char) exampleTxData eq_refl).
  split; [|split].
  - repeat constructor.
  - repeat constructor.
  - intros i vin w ws _ _. reflexivity.
Defined.

Lemma fetchTransaction_returns_answer_witness :
  exists data,
    sampleGet (lit "https://btc.example" ++ lit "/tx/" ++ lit "a1b2") =
      Ok data /\
    inputOfVin <$> TxData.vin sampleTxData = inputOfVin <$> TxData.vin data.
Proof.
  destruct (fetchTransaction_returns_answer (lit "https://btc.example")
              sampleGet passInput passOutput passWitness (lit "a1b2") _
              eq_refl) as (data & Hget & _ & _ & Hins & _).
  exists data. split; [exact Hget|exact Hins].
Defined.

Lemma addUtxo_of_fetched_transaction_witness :
  exists data,
    sampleGet (lit "https://btc.example" ++ lit "/tx/" ++ lit "a1b2") =
      Ok data /\
    Bitcoin.addUtxo
      (BitcoinFetch.fetchTransactionOuts (lit "https://btc.example")
         sampleGet passInput passOutput passWitness)
      sampleAddInput []
      {| Bitcoin.txid := lit "a1b2"; Bitcoin.vout := 1;
         Bitcoin.value := 123 |} =
    match TxData.vout data !! 1 with
    | Some out =>
        sampleAddInput []
          {| Bitcoin.hash := lit "a1b2"; Bitcoin.index := 1;
             Bitcoin.witnessUtxo :=
               (fromHex (Vout.scriptpubkey out), 123%Z) |}
    | None =>
        Throw (TypeError
                 "Cannot read properties of undefined (reading 'script')")
    end.
Proof.
  apply (addUtxo_of_fetched_transaction (lit "https://btc.example")
           sampleGet passInput passOutput passWitness sampleAddInput []
           {| Bitcoin.txid := lit "a1b2"; Bitcoin.vout := 1;
              Bitcoin.value := 123 |} _ eq_refl).
Defined.

Lemma getTransaction_remove_reads_once_witness :
  (EVMStorage.getTransaction (fun text => Ok (length text)) "pending" true
     (<["pending" := lit "{}"]> (<["other" := lit "[]"]> ∅))).1
    !! "other" = Some (lit "[]").
Proof.
  destruct (getTransaction_remove_reads_once (fun text => Ok (length text))
              "pending" (<["pending" := lit "{}"]> (<["other" := lit "[]"]> ∅)))
    as (_ & _ & _ & Hframe & _).
  rewrite Hframe; [by vm_compute|done].
Defined.
